(** * A shallow embedding of the statemachine engine

    The development follows the layout of the repository:

    - [SMTypes.h]      : constants and the state graph (section 1 and 2);
    - [timer.c]        : the timer manager (section 3);
    - [engine.c]       : the guard matcher and the state runtime (section 4);
    - [statemachine.y] : the semantic actions of the grammar (section 5).

    C integers are values of [Z]; a pointer that may be [NULL] is an
    [option] (or, for a linked list, a Rocq list whose [nil] is [NULL]);
    functions that touch the process state thread it explicitly. *)

From stdpp Require Import base list strings pretty gmap.
From Stdlib Require Import ZArith Lia.

Local Open Scope Z_scope.

(** ** 1. Constants *)

(** [errno] values of Linux, as [<errno.h>] gives them. *)
Definition EOK : Z := 0.
Definition ENOENT : Z := 2.
Definition EINVAL : Z := 22.
Definition ENOTSUP : Z := 95.
Definition ENOTRECOVERABLE : Z := 131.

(** [syslog] priority. *)
Definition LOG_ERR : Z := 3.

(** [SIGRTMIN] is only known at run time (glibc gives 34 on Linux); every
    definition that depends on it takes it as a parameter. *)
Definition TIMER_NOTIFICATION (SIGRTMIN : Z) : Z := SIGRTMIN + 5.
Definition VAR_NOTIFICATION (SIGRTMIN : Z) : Z := SIGRTMIN + 6.

(** A C [unsigned int] compared with an [int]: the [int] operand is
    converted to [unsigned int] before the comparison. *)
Definition uint_of_int (i : Z) : Z := i mod 2 ^ 32.

(** ** 2. Expression trees and the state graph *)

(** Modelled from the spec: the [operation] enumeration of libvaraction's
    [varaction.h], which is not part of the sources.  The constructors are
    the names that the grammar and the engine use, plus the literal and
    local-identifier kinds that the spec lists. *)
Inductive VarOp : Set :=
| VA_NUM | VA_FLOATNUM | VA_STRINGLIT | VA_LOCAL | VA_SYSVAR
| VA_TIMER | VA_ACTIVE_TIMER
| VA_CREATE_TIMER | VA_CREATE_TICK | VA_DELETE_TIMER
| VA_IF | VA_ELSE
| VA_ASSIGN | VA_TIMES_EQUALS | VA_DIV_EQUALS | VA_PLUS_EQUALS
| VA_MINUS_EQUALS | VA_AND_EQUALS | VA_OR_EQUALS | VA_XOR_EQUALS
| VA_OR | VA_AND | VA_BOR | VA_XOR | VA_BAND
| VA_EQUALS | VA_NOTEQUALS | VA_LT | VA_GT | VA_LTE | VA_GTE
| VA_LSHIFT | VA_RSHIFT | VA_ADD | VA_SUB | VA_MUL | VA_DIV
| VA_INC | VA_DEC | VA_NOT
| VA_TOFLOAT | VA_TOINT | VA_TOSHORT | VA_TOSTRING
| VA_FLOAT | VA_INT | VA_SHORT | VA_STRING.

#[global] Instance VarOp_eq_dec : EqDecision VarOp.
Proof. solve_decision. Defined.

(** The fields of a [Variable] node that this repository reads:
    [operation], [obj.val.ui], [hVar], [id] and [lineno]. *)
Record VarNode : Set := mkVarNode {
  operation : VarOp;
  val_ui : Z;             (* obj.val.ui, an unsigned int *)
  hVar : Z;               (* VAR_HANDLE, an unsigned 32-bit handle *)
  var_id : option string; (* id, NULL for anonymous nodes *)
  lineno : Z
}.

(** A [Variable *] ([Variable] itself is a reserved word here): [NULLVAR]
    is the null pointer, [Var n l r] points to a node with fields [n] whose
    [left] and [right] pointers are [l] and [r]. *)
Inductive VariablePtr : Set :=
| NULLVAR
| Var (n : VarNode) (left right : VariablePtr).

(** A [Statement] of a statement list; the list itself is the chain of
    [pNext] pointers, [nil] being [NULL]. *)
Record Statement : Set := mkStatement {
  pVariable : VariablePtr;
  script : option string
}.

(** SMTypes.h: [Transition], [StateEntry], [StateExit], [State] and
    [StateMachine].  The [pNext] links are the Rocq lists that hold the
    records. *)
Record Transition : Set := mkTransition {
  statename : option string;
  trans_pVariable : VariablePtr
}.

Record StateEntry : Set := mkStateEntry {
  entry_pDeclarations : list VariablePtr;
  entry_pStatements : list Statement
}.

Record StateExit : Set := mkStateExit {
  exit_pDeclarations : list VariablePtr;
  exit_pStatements : list Statement
}.

Record State : Set := mkState {
  state_id : string;
  entry : option StateEntry;
  trans : list Transition;
  exit : option StateExit
}.

Record StateMachine : Set := mkStateMachine {
  hVarServer : Z;
  pCurrentState : option State;
  verbose : bool;
  pStateList : list State
}.

(** What the process writes: lines on [stdout] and [syslog] records.  The
    two lines that [RunStateMachine] prints in verbose mode format numbers
    and an error text; they are kept as their arguments. *)
Inductive Output : Set :=
| Stdout (line : string)
| Syslog (priority : Z) (message : string)
| Stdout_received (signum id : Z)
| Stdout_handled (signum id result : Z).

Definition nl : string := String (Ascii.ascii_of_nat 10) EmptyString.

(** A small state monad, used for every function that changes the process
    state. *)
Definition ST (S A : Type) : Type := S -> A * S.

Definition ret {S A : Type} (a : A) : ST S A := fun s => (a, s).

Definition bind {S A B : Type} (c : ST S A) (k : A -> ST S B) : ST S B :=
  fun s => let '(a, s') := c s in k a s'.

Notation "x <- c ;; k" := (bind c (fun x => k))
  (at level 100, c at next level, right associativity).
Notation "c ;;; k" := (bind c (fun _ => k))
  (at level 100, right associativity).

(** ** 3. timer.c *)

Definition MAX_TIMERS : Z := 255.

Definition CLOCK_REALTIME : Z := 0.
Definition SIGEV_SIGNAL : Z := 0.

Record sigevent : Set := mkSigevent {
  sigev_notify : Z;
  sigev_signo : Z;
  sigev_value_sival_int : Z
}.

Record timespec : Set := mkTimespec { tv_sec : Z; tv_nsec : Z }.

Record itimerspec : Set := mkItimerspec {
  it_interval : timespec;
  it_value : timespec
}.

(** The POSIX timer calls that timer.c makes.  [timer_create] receives the
    content of the slot its third argument points to and returns the
    content it leaves there; every call returns its [int] result, and
    [errno] reads the thread's error number. *)
Class TimerOS (OS : Type) := {
  timer_create : Z -> sigevent -> Z -> OS -> (Z * Z) * OS;
  timer_settime : Z -> Z -> itimerspec -> OS -> Z * OS;
  timer_delete : Z -> OS -> Z * OS;
  errno : OS -> Z
}.

(** The calls made, in order. *)
Inductive OsCall : Set :=
| Call_timer_delete (timerID : Z)
| Call_timer_create (clock : Z) (te : sigevent)
| Call_timer_settime (timerID : Z) (flags : Z) (its : itimerspec).

Section timer_c.
Context {OS : Type} `{TimerOS OS}.
Variable SIGRTMIN : Z.

(** The file-scoped array [timers], the state of the operating system
    and the calls made so far. *)
Record TimerState : Type := mkTimerState {
  timers : list Z;
  os : OS;
  calls : list OsCall
}.

Definition timers_init : list Z := replicate (Z.to_nat MAX_TIMERS) 0.

(** [timers[id]] *)
Definition timers_get (id : Z) : ST TimerState Z :=
  fun s => (default 0 (timers s !! Z.to_nat id), s).

Definition os_timer_delete (timerID : Z) : ST TimerState Z :=
  fun s =>
    let '(rc, o) := timer_delete timerID (os s) in
    (rc, mkTimerState (timers s) o (calls s ++ [Call_timer_delete timerID])).

Definition os_errno : ST TimerState Z := fun s => (errno (os s), s).

(** [timer_create( clock, &te, &timers[id] )] *)
Definition os_timer_create (clock : Z) (te : sigevent) (id : Z)
  : ST TimerState Z :=
  fun s =>
    let n := Z.to_nat id in
    let '(rc, t, o) := timer_create clock te (default 0 (timers s !! n)) (os s) in
    (rc, mkTimerState (<[n := t]> (timers s)) o
                      (calls s ++ [Call_timer_create clock te])).

Definition os_timer_settime (timerID flags : Z) (its : itimerspec)
  : ST TimerState Z :=
  fun s =>
    let '(rc, o) := timer_settime timerID flags its (os s) in
    (rc, mkTimerState (timers s) o
                      (calls s ++ [Call_timer_settime timerID flags its])).

Definition DeleteTimer (id : Z) : ST TimerState Z :=
  if (0 <? id) && (id <? MAX_TIMERS) then
    timerID <- timers_get id ;;
    rc <- os_timer_delete timerID ;;
    if rc =? 0 then ret EOK else os_errno
  else
    ret ENOENT.

Definition CreateTimer (id timeoutms : Z) : ST TimerState Z :=
  let sigNo := TIMER_NOTIFICATION SIGRTMIN in
  let secs := Z.quot timeoutms 1000 in
  let msecs := Z.rem timeoutms 1000 in
  if (0 <? id) && (id <? MAX_TIMERS) then
    t <- timers_get id ;;
    (if negb (t =? 0) then DeleteTimer id else ret 0) ;;;
    let te := mkSigevent SIGEV_SIGNAL sigNo id in
    os_timer_create CLOCK_REALTIME te id ;;;
    let its := mkItimerspec (mkTimespec 0 0)
                            (mkTimespec secs (msecs * 1000000)) in
    timerID <- timers_get id ;;
    os_timer_settime timerID 0 its ;;;
    ret EOK
  else
    ret ENOENT.

Definition CreateTick (id timeoutms : Z) : ST TimerState Z :=
  let sigNo := TIMER_NOTIFICATION SIGRTMIN in
  let secs := Z.quot timeoutms 1000 in
  let msecs := Z.rem timeoutms 1000 in
  if (0 <? id) && (id <? MAX_TIMERS) then
    t <- timers_get id ;;
    (if negb (t =? 0) then DeleteTimer id else ret 0) ;;;
    let te := mkSigevent SIGEV_SIGNAL sigNo id in
    os_timer_create CLOCK_REALTIME te id ;;;
    let its := mkItimerspec (mkTimespec secs (msecs * 1000000))
                            (mkTimespec secs (msecs * 1000000)) in
    timerID <- timers_get id ;;
    os_timer_settime timerID 0 its ;;;
    ret EOK
  else
    ret ENOENT.

(** The identifiers of the timer table that can be used. *)
Definition valid_timer_id (id : Z) : Prop := 1 <= id <= 254.

(** The state in which [CreateTimer] and [CreateTick] reach
    [timer_create]: after the deletion of a timer that the slot holds. *)
Definition after_delete (id : Z) (s : TimerState) : TimerState :=
  if negb (default 0 (timers s !! Z.to_nat id) =? 0)
  then (DeleteTimer id s).2 else s.

(** The calls [timer_create] and [timer_settime] of a creation and the
    state they leave. *)
Definition install (id : Z) (its : itimerspec) (s : TimerState)
  : TimerState :=
  let te := mkSigevent SIGEV_SIGNAL (TIMER_NOTIFICATION SIGRTMIN) id in
  let s1 := (os_timer_create CLOCK_REALTIME te id s).2 in
  let t := default 0 (timers s1 !! Z.to_nat id) in
  (os_timer_settime t 0 its s1).2.

Definition one_shot (ms : Z) : itimerspec :=
  mkItimerspec (mkTimespec 0 0)
               (mkTimespec (Z.quot ms 1000) (Z.rem ms 1000 * 1000000)).

Definition periodic (ms : Z) : itimerspec :=
  mkItimerspec (mkTimespec (Z.quot ms 1000) (Z.rem ms 1000 * 1000000))
               (mkTimespec (Z.quot ms 1000) (Z.rem ms 1000 * 1000000)).

End timer_c.

(** ** 4. engine.c *)

(** The functions of libvaraction that the engine calls; [W] is everything
    they act on (the variable server, the local variables, the timers and
    the active-timer register).  [ProcessExpr] leaves the value it computed
    in the root node; it is returned here as the second component, the
    [obj.val.ui] that the caller reads after the call. *)
Class VarAction (W : Type) := {
  ProcessExpr : Z -> VariablePtr -> W -> (Z * Z) * W;
  ProcessCompoundStatement : Z -> list Statement -> W -> Z * W;
  SetTimer : Z -> W -> W
}.

(** The guard matcher is pure. *)
Section CheckInConditions.
Variable SIGRTMIN : Z.

Fixpoint CheckInConditions (pVariable : VariablePtr) (signum id : Z) : Z :=
  match pVariable with
  | NULLVAR => EINVAL
  | Var n l r =>
      if bool_decide (operation n = VA_TIMER)
         && (signum =? TIMER_NOTIFICATION SIGRTMIN)
         && (val_ui n =? uint_of_int id)
      then EOK
      else if bool_decide (operation n = VA_SYSVAR)
              && (signum =? VAR_NOTIFICATION SIGRTMIN)
              && (hVar n =? uint_of_int id)
      then EOK
      else if CheckInConditions l signum id =? EOK then EOK
      else if CheckInConditions r signum id =? EOK then EOK
      else ENOENT
  end.
End CheckInConditions.

(** [FindState]: the first state of the list whose [id] is [stateName]. *)
Fixpoint FindState_from (pState : list State) (stateName : string)
  : option State :=
  match pState with
  | [] => None
  | s :: pNext =>
      if String.eqb (state_id s) stateName then Some s
      else FindState_from pNext stateName
  end.

Definition FindState (pStateMachine : StateMachine)
    (stateName : option string) : option State :=
  match stateName with
  | Some name => FindState_from (pStateList pStateMachine) name
  | None => None
  end.

Section engine_c.
Context {W : Type} `{VarAction W}.
Variable SIGRTMIN : Z.

(** The machine [pStateMachine] points to (the callers of this file never
    pass [NULL]), the state of the action library and what was written. *)
Record Engine : Type := mkEngine {
  machine : StateMachine;
  world : W;
  output : list Output
}.

Definition get_machine : ST Engine StateMachine := fun e => (machine e, e).

(** [pStateMachine->pCurrentState = pState] *)
Definition set_current (pState : option State) : ST Engine unit :=
  fun e =>
    let m := machine e in
    (tt, mkEngine (mkStateMachine (hVarServer m) pState (verbose m)
                                  (pStateList m))
                  (world e) (output e)).

Definition emit (o : Output) : ST Engine unit :=
  fun e => (tt, mkEngine (machine e) (world e) (output e ++ [o])).

Definition call_ProcessExpr (pVariable : VariablePtr) : ST Engine (Z * Z) :=
  fun e =>
    let '(r, w) := ProcessExpr (hVarServer (machine e)) pVariable (world e) in
    (r, mkEngine (machine e) w (output e)).

Definition call_ProcessCompoundStatement (pStatements : list Statement)
  : ST Engine Z :=
  fun e =>
    let '(r, w) :=
      ProcessCompoundStatement (hVarServer (machine e)) pStatements (world e) in
    (r, mkEngine (machine e) w (output e)).

Definition call_SetTimer (id : Z) : ST Engine unit :=
  fun e => (tt, mkEngine (machine e) (SetTimer id (world e)) (output e)).

Definition EnterState (targetState : option string) : ST Engine Z :=
  match targetState with
  | None => ret EINVAL
  | Some target =>
      m <- get_machine ;;
      match FindState m (Some target) with
      | Some pState =>
          (if verbose m
           then emit (Stdout ("Enter State: " +:+ state_id pState +:+ nl))
           else ret tt) ;;;
          set_current (Some pState) ;;;
          match entry pState with
          | Some entry =>
              match entry_pStatements entry with
              | _ :: _ =>
                  call_ProcessCompoundStatement (entry_pStatements entry)
              | [] => ret EOK
              end
          | None =>
              emit (Syslog LOG_ERR
                      ("State '" +:+ target +:+ "' has no entry actions")) ;;;
              ret EINVAL
          end
      | None =>
          emit (Syslog LOG_ERR ("Cannot find state: " +:+ target)) ;;;
          ret ENOENT
      end
  end.

(** A state that [FindState] returned has an [id] that [strcmp] could
    read, so [statename] is [pState->id], never ["unknown"]. *)
Definition ExitState : ST Engine Z :=
  m <- get_machine ;;
  match pCurrentState m with
  | Some pState =>
      (if verbose m
       then emit (Stdout ("Exit State: " +:+ state_id pState +:+ nl))
       else ret tt) ;;;
      match exit pState with
      | Some exit =>
          match exit_pStatements exit with
          | _ :: _ => call_ProcessCompoundStatement (exit_pStatements exit)
          | [] => ret EOK
          end
      | None =>
          emit (Syslog LOG_ERR
                  ("State '" +:+ state_id pState +:+ "' has no exit actions")) ;;;
          ret EINVAL
      end
  | None =>
      emit (Syslog LOG_ERR "No state to exit from") ;;;
      ret EINVAL
  end.

Definition CheckTransition (trans : option Transition) (signum id : Z)
  : ST Engine Z :=
  match trans with
  | Some t =>
      match statename t with
      | Some targetState =>
          let result := CheckInConditions SIGRTMIN (trans_pVariable t) signum id in
          if result =? EOK then
            let pVariable := trans_pVariable t in
            r <- call_ProcessExpr pVariable ;;
            let '(result, ui) := r in
            if result =? EOK then
              let result := if negb (ui =? 0) then EOK else ENOTSUP in
              if result =? EOK then
                result <- ExitState ;;
                if result =? EOK then EnterState (Some targetState)
                else ret result
              else ret result
            else ret result
          else ret result
      | None => ret EINVAL
      end
  | None => ret EINVAL
  end.

(** The [while( trans != NULL )] loop of [HandleSignal]; [result] is the
    value the variable holds when the loop test is reached. *)
Fixpoint HandleSignal_loop (trans : list Transition) (result signum id : Z)
  : ST Engine Z :=
  match trans with
  | [] => ret result
  | t :: pNext =>
      result <- CheckTransition (Some t) signum id ;;
      if result =? EOK then ret result
      else HandleSignal_loop pNext result signum id
  end.

Definition HandleSignal (signum id : Z) : ST Engine Z :=
  (if signum =? TIMER_NOTIFICATION SIGRTMIN then call_SetTimer id
   else ret tt) ;;;
  m <- get_machine ;;
  result <- match pCurrentState m with
            | Some pState => HandleSignal_loop (trans pState) ENOENT signum id
            | None => ret ENOTRECOVERABLE
            end ;;
  call_SetTimer 0 ;;;
  ret result.

(** [RunStateMachine] never returns once ["init"] is entered; the model
    runs it on the signals that [waitSignal] delivers, a finite prefix of
    them at a time. *)
Fixpoint RunStateMachine_loop (signals : list (Z * Z)) (result : Z)
  : ST Engine Z :=
  match signals with
  | [] => ret result
  | (signum, id) :: rest =>
      m <- get_machine ;;
      (if verbose m then emit (Stdout_received signum id) else ret tt) ;;;
      result <- HandleSignal signum id ;;
      (if verbose m then emit (Stdout_handled signum id result)
       else ret tt) ;;;
      RunStateMachine_loop rest result
  end.

Definition RunStateMachine (signals : list (Z * Z)) : ST Engine Z :=
  result <- EnterState (Some "init"%string) ;;
  if result =? EOK then RunStateMachine_loop signals result
  else
    emit (Syslog LOG_ERR "Cannot find init state") ;;;
    ret result.

End engine_c.

(** ** 5. statemachine.y: the semantic actions *)

(** The variable server, as the parser uses it: [VAR_Notify] with the
    handle of the server, the handle of the variable and the kind of
    notification. *)
Class VarServer (V : Type) := {
  VAR_Notify : Z -> Z -> Z -> V -> Z * V
}.

(** Modelled from the spec: [CreateVariable] of libvaraction, which is not
    part of the sources, builds a node with the given operation and the
    given [left] and [right] children; nothing else is set. *)
Definition CreateVariable (op : VarOp) (left right : VariablePtr)
  : VariablePtr :=
  Var (mkVarNode op 0 0 None 0) left right.

Definition operation_of (p : VariablePtr) : option VarOp :=
  match p with
  | NULLVAR => None
  | Var n _ _ => Some (operation n)
  end.

(** The tokens of the timer statements. *)
Inductive token : Set :=
| CREATE | DELETE | TIMER | TICK
| NUM (yytext : string)
| ID (yytext : string)
| SEMICOLON.

Section statemachine_y.
Context {V : Type} `{VarServer V}.

(** Constants of [varserver.h] and constructors of libvaraction, neither
    part of the sources. *)
Variable VAR_INVALID : Z.
Variable NOTIFY_MODIFIED : Z.
Variable NewNumber : string -> VariablePtr.
Variable NewIdentifier : Z -> string -> bool -> VariablePtr.
Variable getlineno : Z.

(** The variable server, the [VAR_Notify] calls made so far (server
    handle and variable handle) and what was logged. *)
Record Parser : Type := mkParser {
  server : V;
  notified : list (Z * Z);
  logged : list Output
}.

Definition call_VAR_Notify (hVarServer hVar : Z) : ST Parser Z :=
  fun p =>
    let '(rc, v) := VAR_Notify hVarServer hVar NOTIFY_MODIFIED (server p) in
    (rc, mkParser v (notified p ++ [(hVarServer, hVar)]) (logged p)).

Definition parser_syslog (priority : Z) (message : string) : ST Parser unit :=
  fun p =>
    (tt, mkParser (server p) (notified p)
                  (logged p ++ [Syslog priority message])).

Fixpoint RequestNotifications (hVarServer : Z) (pVariable : VariablePtr)
  : ST Parser Z :=
  match pVariable with
  | NULLVAR => ret EOK
  | Var n l r =>
      let result := EOK in
      rcl <- RequestNotifications hVarServer l ;;
      let result := if negb (rcl =? EOK) then rcl else result in
      rcr <- RequestNotifications hVarServer r ;;
      let result := if negb (rcr =? EOK) then rcr else result in
      if bool_decide (operation n = VA_SYSVAR)
         && negb (hVar n =? VAR_INVALID)
      then
        rc <- call_VAR_Notify hVarServer (hVar n) ;;
        if negb (rc =? EOK) then
          parser_syslog LOG_ERR
            ("Can't request change notification for "
             +:+ default "unknown"%string (var_id n)
             +:+ " on line " +:+ pretty (lineno n) +:+ nl) ;;;
          ret rc
        else ret result
      else ret result
  end.

(** [transition : id COLON expression].  [calloc] gives a transition or
    [NULL]; [allocated] tells which. *)
Definition transition_action (hVarServer : Z) (allocated : bool)
    (id : option string) (expression : VariablePtr)
  : ST Parser (option Transition) :=
  if allocated then
    let trans := mkTransition id expression in
    RequestNotifications hVarServer (trans_pVariable trans) ;;;
    ret (Some trans)
  else ret None.

(** [transitionlist : transition transitionlist | (empty)].  Every
    [transition] is reduced, in the order of the text, before the list
    that holds it; a transition that could not be allocated ends the
    list, since the value of the rule is then [NULL]. *)
Fixpoint transitionlist_action (hVarServer : Z)
    (rules : list (bool * option string * VariablePtr))
  : ST Parser (list Transition) :=
  match rules with
  | [] => ret []
  | (allocated, id, expression) :: rest =>
      t <- transition_action hVarServer allocated id expression ;;
      ts <- transitionlist_action hVarServer rest ;;
      ret match t with
          | Some trans => trans :: ts
          | None => []
          end
  end.

(** [entry : ENTRY LBRACE declaration_list statement_list RBRACE] *)
Definition entry_action (allocated : bool)
    (declaration_list : list VariablePtr) (statement_list : list Statement)
  : ST Parser (option StateEntry) :=
  ret (if allocated
       then Some (mkStateEntry declaration_list statement_list)
       else None).

(** [exit : EXIT LBRACE declaration_list statement_list RBRACE] *)
Definition exit_action (allocated : bool)
    (declaration_list : list VariablePtr) (statement_list : list Statement)
  : ST Parser (option StateExit) :=
  ret (if allocated
       then Some (mkStateExit declaration_list statement_list)
       else None).

(** The text of one state, with its expressions and statements already
    reduced to trees. *)
Record state_text : Type := mkStateText {
  text_id : string;
  text_entry : bool * list VariablePtr * list Statement;
  text_transitions : list (bool * option string * VariablePtr);
  text_exit : bool * list VariablePtr * list Statement
}.

(** [state_definition : STATE id LBRACE state_body RBRACE] with
    [state_body : entry transblock exit]: the three blocks are reduced
    from left to right, then the state is allocated. *)
Definition state_definition_action (hVarServer : Z) (allocated : bool)
    (text : state_text) : ST Parser (option State) :=
  let '(ea, ed, es) := text_entry text in
  let '(xa, xd, xs) := text_exit text in
  entry <- entry_action ea ed es ;;
  trans <- transitionlist_action hVarServer (text_transitions text) ;;
  exit <- exit_action xa xd xs ;;
  ret (if allocated
       then Some (mkState (text_id text) entry trans exit)
       else None).

(** [timer_statement], one constructor for each right-hand side, with
    the values of its [number] and [identifier] symbols. *)
Inductive timer_statement_rhs : Set :=
| CREATE_TIMER_number_number (n3 n4 : VariablePtr)
| CREATE_TIMER_number_identifier (n3 n4 : VariablePtr)
| CREATE_TICK_number_number (n3 n4 : VariablePtr)
| CREATE_TICK_number_identifier (n3 n4 : VariablePtr)
| DELETE_TIMER_number (n3 : VariablePtr).

Definition timer_statement_action (rhs : timer_statement_rhs)
  : VariablePtr :=
  match rhs with
  | CREATE_TIMER_number_number n3 n4 => CreateVariable VA_CREATE_TIMER n3 n4
  | CREATE_TIMER_number_identifier n3 n4 =>
      CreateVariable VA_CREATE_TIMER n3 n4
  | CREATE_TICK_number_number n3 n4 => CreateVariable VA_CREATE_TICK n3 n4
  | CREATE_TICK_number_identifier n3 n4 =>
      CreateVariable VA_CREATE_TIMER n3 n4
  | DELETE_TIMER_number n3 => CreateVariable VA_DELETE_TIMER n3 NULLVAR
  end.

(** [number : NUM] *)
Definition number_action (yytext : string) : VariablePtr :=
  NewNumber yytext.

(** [identifier : ID]: the node that [NewIdentifier] gives, with its
    [lineno] set when it is not [NULL]. *)
Definition identifier_action (hVarServer : Z) (yytext : string)
  : VariablePtr :=
  match NewIdentifier hVarServer yytext false with
  | NULLVAR => NULLVAR
  | Var n l r =>
      Var (mkVarNode (operation n) (val_ui n) (hVar n) (var_id n) getlineno)
          l r
  end.

(** The right-hand side that the tokens of a timer statement select. *)
Definition timer_statement_rule (hVarServer : Z) (tokens : list token)
  : option timer_statement_rhs :=
  match tokens with
  | [CREATE; TIMER; NUM a; NUM b] =>
      Some (CREATE_TIMER_number_number (number_action a) (number_action b))
  | [CREATE; TIMER; NUM a; ID b] =>
      Some (CREATE_TIMER_number_identifier
              (number_action a) (identifier_action hVarServer b))
  | [CREATE; TICK; NUM a; NUM b] =>
      Some (CREATE_TICK_number_number (number_action a) (number_action b))
  | [CREATE; TICK; NUM a; ID b] =>
      Some (CREATE_TICK_number_identifier
              (number_action a) (identifier_action hVarServer b))
  | [DELETE; TIMER; NUM a] =>
      Some (DELETE_TIMER_number (number_action a))
  | _ => None
  end.

Definition parse_timer_statement (hVarServer : Z) (tokens : list token)
  : option VariablePtr :=
  timer_statement_action <$> timer_statement_rule hVarServer tokens.

(** [statement : timer_statement SEMICOLON] *)
Definition statement_action (allocated : bool) (pVariable : VariablePtr)
  : option Statement :=
  if allocated then Some (mkStatement pVariable None) else None.

(** [timer_expression : TIMER number] *)
Definition timer_expression_action (number : VariablePtr) : VariablePtr :=
  let number :=
    match number with
    | NULLVAR => NULLVAR
    | Var n l r =>
        Var (mkVarNode VA_TIMER (val_ui n) (hVar n) (var_id n) (lineno n)) l r
    end in
  CreateVariable VA_EQUALS number
    (CreateVariable VA_ACTIVE_TIMER NULLVAR NULLVAR).

End statemachine_y.

(** ** 6. The vocabulary of the properties *)

Section guard_vocabulary.
Variable SIGRTMIN : Z.

(** A node references the event [(signum, id)]: a [TIMER] literal whose
    stored value is [id] for a timer notification, a [SYSVAR] node whose
    handle is [id] for a variable notification.  The stored value and
    the handle are unsigned, and C compares them with the [int] payload
    after converting it: for a payload that is not negative,
    [uint_of_int id] is [id]. *)
Definition node_references (signum id : Z) (n : VarNode) : Prop :=
  (operation n = VA_TIMER /\ signum = TIMER_NOTIFICATION SIGRTMIN
   /\ val_ui n = uint_of_int id)
  \/ (operation n = VA_SYSVAR /\ signum = VAR_NOTIFICATION SIGRTMIN
      /\ hVar n = uint_of_int id).

(** The tree contains a node with property [P]: the root, or a node of
    the left subtree, or a node of the right subtree. *)
Inductive Contains (P : VarNode -> Prop) : VariablePtr -> Prop :=
| Contains_root n l r : P n -> Contains P (Var n l r)
| Contains_left n l r : Contains P l -> Contains P (Var n l r)
| Contains_right n l r : Contains P r -> Contains P (Var n l r).

Definition references (signum id : Z) (p : VariablePtr) : Prop :=
  Contains (node_references signum id) p.
End guard_vocabulary.

(** The [SYSVAR] nodes with a valid handle, in the order in which
    [RequestNotifications] visits them: left subtree, right subtree, node. *)
Fixpoint valid_sysvars (VAR_INVALID : Z) (p : VariablePtr) : list VarNode :=
  match p with
  | NULLVAR => []
  | Var n l r =>
      valid_sysvars VAR_INVALID l ++ valid_sysvars VAR_INVALID r ++
      (if bool_decide (operation n = VA_SYSVAR) && negb (hVar n =? VAR_INVALID)
       then [n] else [])
  end.

(** The requests that one guard tree causes, for the server [h]. *)
Definition requests_of (VAR_INVALID h : Z) (guard : VariablePtr) : list (Z * Z) :=
  map (fun n => (h, hVar n)) (valid_sysvars VAR_INVALID guard).

(** The requests of a list of transition rules. *)
Definition requests_of_rules (VAR_INVALID h : Z)
    (rules : list (bool * option string * VariablePtr)) : list (Z * Z) :=
  concat (map (fun rule : bool * option string * VariablePtr =>
                 let '(allocated, _, guard) := rule in
                 if allocated then requests_of VAR_INVALID h guard else [])
              rules).

Section dispatch_vocabulary.
Context {W : Type} `{VarAction W}.
Variable SIGRTMIN : Z.

(** [Checks signum id ts e rs e']: calling [CheckTransition] on the
    transitions [ts] one after the other, from [e], gives the results
    [rs] and leaves [e']. *)
Inductive Checks (signum id : Z)
  : list Transition -> Engine -> list Z -> Engine -> Prop :=
| Checks_nil e : Checks signum id [] e [] e
| Checks_cons t ts e r e1 rs e2 :
    CheckTransition SIGRTMIN (Some t) signum id e = (r, e1) ->
    Checks signum id ts e1 rs e2 ->
    Checks signum id (t :: ts) e (r :: rs) e2.

(** The guard of [t] references the event and evaluates nonzero in [e]. *)
Definition guard_fires (signum id : Z) (t : Transition) (e : Engine)
  : Prop :=
  CheckInConditions SIGRTMIN (trans_pVariable t) signum id = EOK /\
  exists ui,
    (call_ProcessExpr (trans_pVariable t) e).1 = (EOK, ui) /\ ui <> 0.
End dispatch_vocabulary.

(** ** 7. Instances used to run the definitions *)

(** A POSIX-like timer service: [timer_create] hands out fresh non-null
    identifiers, [timer_settime] and [timer_delete] fail with [EINVAL] on
    an identifier that is not live. *)
Record posix_timers : Set := mkPosixTimers {
  live : list Z;
  fresh : Z;
  last_errno : Z
}.

Definition posix_timers_init : posix_timers := mkPosixTimers [] 1 0.

Definition is_live (t : Z) (o : posix_timers) : bool :=
  bool_decide (t ∈ live o).

#[global] Instance posix_TimerOS : TimerOS posix_timers := {|
  timer_create := fun _ _ _ o =>
    (0, fresh o, mkPosixTimers (fresh o :: live o) (fresh o + 1) (last_errno o));
  timer_settime := fun t _ _ o =>
    if is_live t o then (0, o)
    else (-1, mkPosixTimers (live o) (fresh o) EINVAL);
  timer_delete := fun t o =>
    if is_live t o
    then (0, mkPosixTimers (filter (fun x => x ≠ t) (live o)) (fresh o)
                           (last_errno o))
    else (-1, mkPosixTimers (live o) (fresh o) EINVAL);
  errno := last_errno
|}.

(** A timer service out of resources: every call fails and [timer_create]
    leaves the slot as it found it. *)
Definition EAGAIN : Z := 11.

Definition exhausted_TimerOS : TimerOS unit := {|
  timer_create := fun _ _ slot o => (-1, slot, o);
  timer_settime := fun _ _ _ o => (-1, o);
  timer_delete := fun _ o => (-1, o);
  errno := fun _ => EAGAIN
|}.


(** A small evaluator standing in for libvaraction: system variables are
    read from a table, [TIMER] and number literals give their value,
    [ACTIVE_TIMER] the register that [SetTimer] writes, and [==] compares.
    A compound statement is recorded, in the order of execution, and
    succeeds. *)
Record test_world : Type := mkTestWorld {
  sysvars : gmap Z Z;
  active_timer : Z;
  executed : list Statement
}.

Fixpoint test_eval (w : test_world) (p : VariablePtr) : option Z :=
  match p with
  | NULLVAR => None
  | Var n l r =>
      match operation n with
      | VA_NUM | VA_TIMER => Some (val_ui n)
      | VA_SYSVAR => sysvars w !! hVar n
      | VA_ACTIVE_TIMER => Some (active_timer w)
      | VA_EQUALS =>
          match test_eval w l, test_eval w r with
          | Some a, Some b => Some (if a =? b then 1 else 0)
          | _, _ => None
          end
      | _ => None
      end
  end.

#[global] Instance test_VarAction : VarAction test_world := {|
  ProcessExpr := fun _ p w =>
    match test_eval w p with
    | Some v => (EOK, v, w)
    | None => (EINVAL, 0, w)
    end;
  ProcessCompoundStatement := fun _ stmts w =>
    (EOK, mkTestWorld (sysvars w) (active_timer w) (executed w ++ stmts));
  SetTimer := fun id w => mkTestWorld (sysvars w) id (executed w)
|}.

(** Trees as the grammar builds them. *)
Definition num (v : Z) : VariablePtr :=
  Var (mkVarNode VA_NUM v 0 None 0) NULLVAR NULLVAR.

Definition sysvar (h : Z) (name : string) : VariablePtr :=
  Var (mkVarNode VA_SYSVAR 0 h (Some name) 0) NULLVAR NULLVAR.

Definition local (name : string) : VariablePtr :=
  Var (mkVarNode VA_LOCAL 0 0 (Some name) 0) NULLVAR NULLVAR.

Definition stmt (p : VariablePtr) : Statement := mkStatement p None.

(** test/example2.sm, the alarm system.  The handles of its variables: *)
Definition h_activate : Z := 1.
Definition h_trigger : Z := 2.
Definition h_armed : Z := 3.
Definition h_siren : Z := 4.
Definition h_arm_delay : Z := 5.

Definition v_activate := sysvar h_activate "/sys/alarm/activate".
Definition v_trigger := sysvar h_trigger "/sys/alarm/trigger".
Definition v_armed := sysvar h_armed "/sys/alarm/armed".
Definition v_siren := sysvar h_siren "/sys/alarm/siren".
Definition v_arm_delay := sysvar h_arm_delay "/sys/alarm/arm_delay".

Definition timer_1 : VariablePtr := timer_expression_action (num 1).
Definition delete_timer_1 : Statement :=
  stmt (CreateVariable VA_DELETE_TIMER (num 1) NULLVAR).

Definition sm_init : State :=
  mkState "init"
    (Some (mkStateEntry []
       [stmt (CreateVariable VA_ASSIGN v_armed (num 0));
        stmt (CreateVariable VA_CREATE_TIMER (num 1) (num 100))]))
    [mkTransition (Some "disarmed"%string) timer_1]
    (Some (mkStateExit [] [delete_timer_1])).

Definition sm_disarmed : State :=
  mkState "disarmed"
    (Some (mkStateEntry []
       [stmt (CreateVariable VA_ASSIGN v_siren (num 0));
        stmt (CreateVariable VA_ASSIGN v_armed (num 0))]))
    [mkTransition (Some "arming"%string)
       (CreateVariable VA_EQUALS v_activate (num 1))]
    (Some (mkStateExit [] [])).

Definition sm_arming : State :=
  mkState "arming"
    (Some (mkStateEntry [local "armdelay"]
       [stmt (CreateVariable VA_ASSIGN (local "armdelay")
                (CreateVariable VA_MUL v_arm_delay (num 1000)));
        stmt (CreateVariable VA_CREATE_TIMER (num 1) (local "armdelay"))]))
    [mkTransition (Some "armed"%string) timer_1;
     mkTransition (Some "disarmed"%string)
       (CreateVariable VA_EQUALS v_activate (num 0))]
    (Some (mkStateExit [] [delete_timer_1])).

Definition sm_armed : State :=
  mkState "armed"
    (Some (mkStateEntry [] [stmt (CreateVariable VA_ASSIGN v_armed (num 1))]))
    [mkTransition (Some "alarm"%string)
       (CreateVariable VA_EQUALS v_trigger (num 1));
     mkTransition (Some "disarmed"%string)
       (CreateVariable VA_EQUALS v_activate (num 0))]
    (Some (mkStateExit [] [])).

Definition sm_alarm : State :=
  mkState "alarm"
    (Some (mkStateEntry []
       [stmt (CreateVariable VA_ASSIGN v_siren (num 1));
        stmt (CreateVariable VA_CREATE_TIMER (num 1) (num 60000))]))
    [mkTransition (Some "armed"%string) timer_1;
     mkTransition (Some "disarmed"%string)
       (CreateVariable VA_EQUALS v_activate (num 0))]
    (Some (mkStateExit []
       [stmt (CreateVariable VA_ASSIGN v_siren (num 0)); delete_timer_1])).

Definition example2 (current : option State) (verbose : bool) : StateMachine :=
  mkStateMachine 1000 current verbose
    [sm_init; sm_disarmed; sm_arming; sm_armed; sm_alarm].

(** The alarm is armed and activated, nothing has triggered it. *)
Definition armed_world : test_world :=
  mkTestWorld
    (<[h_activate := 1]> (<[h_trigger := 0]> (<[h_armed := 1]>
       (<[h_siren := 0]> (<[h_arm_delay := 1]> ∅)))))
    0 [].

Definition armed_engine : @Engine test_world :=
  mkEngine (example2 (Some sm_armed) true) armed_world [].

(** A machine whose first transition names a state that does not exist. *)
Definition exit_a : Statement := stmt (CreateVariable VA_ASSIGN v_siren (num 0)).
Definition entry_b : Statement := stmt (CreateVariable VA_ASSIGN v_siren (num 1)).

Definition to_ghost : Transition :=
  mkTransition (Some "ghost"%string)
    (CreateVariable VA_EQUALS v_activate (num 1)).

Definition to_b : Transition :=
  mkTransition (Some "b"%string)
    (CreateVariable VA_EQUALS v_activate (num 1)).

Definition state_a : State :=
  mkState "a" (Some (mkStateEntry [] [])) [to_ghost; to_b]
    (Some (mkStateExit [] [exit_a])).

Definition state_b : State :=
  mkState "b" (Some (mkStateEntry [] [entry_b])) [] (Some (mkStateExit [] [])).

Definition ghost_engine : @Engine test_world :=
  mkEngine (mkStateMachine 1000 (Some state_a) true [state_a; state_b])
           armed_world [].

(** A state without entry and exit blocks, and the same state with empty
    blocks. *)
Definition bare_state : State := mkState "bare" None [] None.
Definition empty_state : State :=
  mkState "bare" (Some (mkStateEntry [] [])) [] (Some (mkStateExit [] [])).

Definition bare_engine : @Engine test_world :=
  mkEngine (mkStateMachine 1000 (Some bare_state) false [bare_state])
           armed_world [].

Definition empty_engine : @Engine test_world :=
  mkEngine (mkStateMachine 1000 (Some empty_state) false [empty_state])
           armed_world [].

(** A variable server that grants every request. *)
#[global] Instance granting_VarServer : VarServer unit := {|
  VAR_Notify := fun _ _ _ v => (EOK, v)
|}.

(** The two notifications, with the [SIGRTMIN] of glibc. *)
Definition sig_timer : Z := TIMER_NOTIFICATION 34.
Definition sig_var : Z := VAR_NOTIFICATION 34.

(** States of timer.c: the initial one, and one in which slot 3 holds a
    timer. *)
Definition timer_state0 : @TimerState posix_timers :=
  mkTimerState timers_init posix_timers_init [].

Definition timer_state1 : @TimerState posix_timers :=
  (CreateTimer 34 3 1000 timer_state0).2.

Definition exhausted_state0 : @TimerState unit :=
  mkTimerState timers_init tt [].

(** The alarm machine before [RunStateMachine], and the signals of a run:
    the timer of [init], a change of the trigger, the activation, a timer
    nobody waits for and the timer of [arming]. *)
Definition example2_start : @Engine test_world :=
  mkEngine (example2 None true) armed_world [].

Definition example2_signals : list (Z * Z) :=
  [(sig_timer, 1); (sig_var, h_trigger); (sig_var, h_activate);
   (sig_timer, 2); (sig_timer, 1)].

(** ** 8. More of the grammar, and the vocabulary of further properties *)

(** [state_definition_list : state_definition state_definition_list |
    (empty)].  Every state is reduced, in the order of the text, before the
    list that holds it; a state that could not be allocated ends the list,
    since the value of the rule is then [NULL]. *)
Section state_definition_list.
Context {V : Type} `{VarServer V}.
Variable VAR_INVALID : Z.
Variable NOTIFY_MODIFIED : Z.

Fixpoint state_definition_list_action (hVarServer : Z)
    (texts : list (bool * state_text))
  : ST (@Parser V) (list State) :=
  match texts with
  | [] => ret []
  | (allocated, text) :: rest =>
      pState <- state_definition_action VAR_INVALID NOTIFY_MODIFIED
                  hVarServer allocated text ;;
      pNext <- state_definition_list_action hVarServer rest ;;
      ret match pState with
          | Some state => state :: pNext
          | None => []
          end
  end.
End state_definition_list.

(** [statemachine : STATEMACHINE LBRACE name description
    state_definition_list RBRACE]: the list becomes [pStateList]; the name
    and the description, which nothing else reads, are not fields of the
    record here. *)
Definition statemachine_action (pStateMachine : StateMachine)
    (state_definition_list : list State) : StateMachine :=
  mkStateMachine (hVarServer pStateMachine) (pCurrentState pStateMachine)
                 (verbose pStateMachine) state_definition_list.

(** [VAR_FindByName] of the variable server. *)
Class VarServerNames (V : Type) := {
  VAR_FindByName : Z -> string -> V -> Z * V
}.

Section RequestNotification.
Context {V : Type} `{VarServer V} `{VarServerNames V}.
Variable VAR_INVALID : Z.
Variable NOTIFY_MODIFIED : Z.

Definition call_VAR_FindByName (hVarServer : Z) (varName : string)
  : ST (@Parser V) Z :=
  fun p =>
    let '(hVar, v) := VAR_FindByName hVarServer varName (server p) in
    (hVar, mkParser v (notified p) (logged p)).

Definition RequestNotification (hVarServer : Z) (varName : string)
  : ST (@Parser V) Z :=
  hVar <- call_VAR_FindByName hVarServer varName ;;
  if negb (hVar =? VAR_INVALID) then
    result <- call_VAR_Notify NOTIFY_MODIFIED hVarServer hVar ;;
    if negb (result =? EOK) then
      parser_syslog LOG_ERR
        ("Cannot request change notification for " +:+ varName +:+ nl) ;;;
      ret VAR_INVALID
    else ret hVar
  else
    parser_syslog LOG_ERR ("Cannot get handle for " +:+ varName +:+ nl) ;;;
    ret hVar.
End RequestNotification.

(** The statements of a block as [EnterState] and [ExitState] run them:
    a [NULL] list is not handed to the action library. *)
Definition run_statements {W : Type} `{VarAction W}
    (hVarServer : Z) (pStatements : list Statement) (w : W) : Z * W :=
  match pStatements with
  | [] => (EOK, w)
  | _ :: _ => ProcessCompoundStatement hVarServer pStatements w
  end.

(** Two machines with the same definition: they differ at most in the
    current state. *)
Definition same_definition (m m' : StateMachine) : Prop :=
  hVarServer m' = hVarServer m /\ verbose m' = verbose m
  /\ pStateList m' = pStateList m.

(** The current state is one of the states of the machine. *)
Definition current_in_list (m : StateMachine) : Prop :=
  exists s, pCurrentState m = Some s /\ s ∈ pStateList m.

(** The invariant of a run that started from the machine [m0]: the
    definition is the one of [m0] and the current state is one of its
    states. *)
Definition run_invariant (m0 m : StateMachine) : Prop :=
  same_definition m0 m /\ current_in_list m.

(** The lines that verbose mode prints around a transition. *)
Definition verbose_line (m : StateMachine) (prefix : string) (s : State)
  : list Output :=
  if verbose m then [Stdout (prefix +:+ state_id s +:+ nl)] else [].

(** A list of rules of the grammar in which [kept] is what comes before
    the first rule that could not be allocated. *)
Definition kept_before_failure {A : Type} (allocated : A -> bool)
    (kept rules : list A) : Prop :=
  Forall (fun rule => allocated rule = true) kept /\
  exists rest,
    rules = kept ++ rest /\
    (rest = [] \/ exists rule post, rest = rule :: post /\ allocated rule = false).

(** The transition that an allocated rule gives. *)
Definition transition_of_rule (rule : bool * option string * VariablePtr)
  : Transition :=
  mkTransition rule.1.2 rule.2.

(** The time a [timespec] stands for, in nanoseconds. *)
Definition nanoseconds (t : timespec) : Z := tv_sec t * 10 ^ 9 + tv_nsec t.

(** A leaf of an expression tree. *)
Definition leaf (n : VarNode) : VariablePtr := Var n NULLVAR NULLVAR.

(** A state that has a transition and no exit block. *)
Definition trap_state : State :=
  mkState "trap" (Some (mkStateEntry [] [])) [to_b] None.

Definition trap_engine : @Engine test_world :=
  mkEngine (mkStateMachine 1000 (Some trap_state) true [trap_state; state_b])
           armed_world [].

(** A variable server that knows the variables of test/example2.sm and
    grants every request. *)
#[global] Instance example2_names : VarServerNames unit := {|
  VAR_FindByName := fun _ name v =>
    (if String.eqb name "/sys/alarm/activate" then h_activate
     else if String.eqb name "/sys/alarm/trigger" then h_trigger
     else if String.eqb name "/sys/alarm/armed" then h_armed
     else if String.eqb name "/sys/alarm/siren" then h_siren
     else if String.eqb name "/sys/alarm/arm_delay" then h_arm_delay
     else 0, v)
|}.

(** A variable server that refuses every request. *)
Definition refusing_VarServer : VarServer unit := {|
  VAR_Notify := fun _ _ _ v => (ENOTSUP, v)
|}.

(** The text of state [armed] of test/example2.sm, and of a state of the
    same name that follows it. *)
Definition text_armed : state_text :=
  mkStateText "armed"
    (true, [], [stmt (CreateVariable VA_ASSIGN v_armed (num 1))])
    [(true, Some "alarm"%string, CreateVariable VA_EQUALS v_trigger (num 1));
     (true, Some "disarmed"%string,
      CreateVariable VA_EQUALS v_activate (num 0))]
    (true, [], []).

Definition text_armed_again : state_text :=
  mkStateText "armed" (true, [], []) [] (true, [], []).

Definition parser0 : @Parser unit := mkParser tt [] [].

(** The number of the guard [timer 3], transition rules of which the
    second cannot be allocated, and state texts of which the third
    cannot. *)
Definition number_3 : VarNode := mkVarNode VA_NUM 3 0 None 0.

Definition rules_with_failure : list (bool * option string * VariablePtr) :=
  [(true, Some "alarm"%string, CreateVariable VA_EQUALS v_trigger (num 1));
   (false, Some "lost"%string, CreateVariable VA_EQUALS v_siren (num 1));
   (true, Some "disarmed"%string,
    CreateVariable VA_EQUALS v_activate (num 0))].

Definition text_init : state_text :=
  mkStateText "init" (true, [], []) [] (true, [], []).

Definition texts_with_failure : list (bool * state_text) :=
  [(true, text_armed); (true, text_armed_again); (false, text_init)].

(** The world after the exit block of state [a]. *)
Definition world_after_exit_a : test_world :=
  mkTestWorld (sysvars armed_world) 0 [exit_a].

(** An engine whose current state has an exit block and whose state
    ["bare"] has no entry block. *)
Definition bare_target_engine : @Engine test_world :=
  mkEngine (mkStateMachine 1000 (Some state_a) true [state_a; bare_state])
           armed_world [].

(** An action library in which a compound statement that creates a timer
    with an id outside [1, 254] fails with [ENOENT], the result of
    [CreateTimer] for such an id; it differs from [test_VarAction] in
    this only. *)
Definition creates_invalid_timer (s : Statement) : bool :=
  match pVariable s with
  | Var n (Var id _ _) _ =>
      bool_decide (operation n = VA_CREATE_TIMER)
      && negb ((0 <? val_ui id) && (val_ui id <? MAX_TIMERS))
  | _ => false
  end.

Definition strict_VarAction : VarAction test_world := {|
  ProcessExpr := fun _ p w =>
    match test_eval w p with
    | Some v => (EOK, v, w)
    | None => (EINVAL, 0, w)
    end;
  ProcessCompoundStatement := fun _ stmts w =>
    (if existsb creates_invalid_timer stmts then ENOENT else EOK,
     mkTestWorld (sysvars w) (active_timer w) (executed w ++ stmts));
  SetTimer := fun id w => mkTestWorld (sysvars w) id (executed w)
|}.

(** Three states: [first] goes to [second] or to [third] when the alarm is
    activated; the entry block of [second] creates the timer 300. *)
Definition create_timer_300 : Statement :=
  stmt (CreateVariable VA_CREATE_TIMER (num 300) (num 100)).
Definition exit_second : Statement :=
  stmt (CreateVariable VA_ASSIGN v_armed (num 0)).
Definition entry_third : Statement :=
  stmt (CreateVariable VA_ASSIGN v_armed (num 1)).

Definition to_second : Transition :=
  mkTransition (Some "second"%string)
    (CreateVariable VA_EQUALS v_activate (num 1)).
Definition to_third : Transition :=
  mkTransition (Some "third"%string)
    (CreateVariable VA_EQUALS v_activate (num 1)).

Definition state_first : State :=
  mkState "first" (Some (mkStateEntry [] [])) [to_second; to_third]
    (Some (mkStateExit [] [exit_a])).
Definition state_second : State :=
  mkState "second" (Some (mkStateEntry [] [create_timer_300])) []
    (Some (mkStateExit [] [exit_second])).
Definition state_third : State :=
  mkState "third" (Some (mkStateEntry [] [entry_third])) []
    (Some (mkStateExit [] [])).

Definition three_state_engine : @Engine test_world :=
  mkEngine
    (mkStateMachine 1000 (Some state_first) true
       [state_first; state_second; state_third])
    armed_world [].

(** The requests of a guard tree seen from the server. *)
Section request_vocabulary.
Context {V : Type} `{VarServer V}.
Variable NOTIFY_MODIFIED : Z.

(** The answers of the server to the requests for the nodes, made one
    after the other: every node with the result of [VAR_Notify] for its
    handle, and the server that the requests leave. *)
Fixpoint answers_of (hVarServer : Z) (nodes : list VarNode) (v : V)
  : list (VarNode * Z) * V :=
  match nodes with
  | [] => ([], v)
  | n :: rest =>
      let '(rc, v1) := VAR_Notify hVarServer (hVar n) NOTIFY_MODIFIED v in
      let '(answers, v2) := answers_of hVarServer rest v1 in
      ((n, rc) :: answers, v2)
  end.
End request_vocabulary.

(** The answer to the last request that was refused, [result] when none
    was. *)
Fixpoint last_refusal (result : Z) (answers : list (VarNode * Z)) : Z :=
  match answers with
  | [] => result
  | (_, rc) :: rest =>
      last_refusal (if negb (rc =? EOK) then rc else result) rest
  end.

(** The record that a refused request leaves in the log. *)
Definition refusal_record (answer : VarNode * Z) : list Output :=
  if negb (answer.2 =? EOK)
  then [Syslog LOG_ERR
          ("Can't request change notification for "
           +:+ default "unknown"%string (var_id answer.1)
           +:+ " on line " +:+ pretty (lineno answer.1) +:+ nl)]
  else [].

(** A variable server that refuses the requests for [/sys/alarm/trigger]
    and grants the others. *)
Definition trigger_refusing_VarServer : VarServer unit := {|
  VAR_Notify := fun _ hVar _ v =>
    (if hVar =? h_trigger then ENOTSUP else EOK, v)
|}.

(** The guard [/sys/alarm/trigger == 1 || /sys/alarm/activate == 0]. *)
Definition trigger_or_activate : VariablePtr :=
  CreateVariable VA_OR (CreateVariable VA_EQUALS v_trigger (num 1))
                       (CreateVariable VA_EQUALS v_activate (num 0)).

(** ** 9. Properties of timer.c *)

Lemma uint_of_int_small (i : Z) : 0 <= i < 2 ^ 32 -> uint_of_int i = i.
Proof. intros H. unfold uint_of_int. apply Z.mod_small. exact H. Qed.

Section timer_properties.
Context {OS : Type} `{TimerOS OS}.
Variable SIGRTMIN : Z.

Lemma id_guard_true (id : Z) :
  valid_timer_id id -> (0 <? id) && (id <? MAX_TIMERS) = true.
Proof. unfold valid_timer_id, MAX_TIMERS. lia. Qed.

Lemma id_guard_false (id : Z) :
  ~ valid_timer_id id -> (0 <? id) && (id <? MAX_TIMERS) = false.
Proof. unfold valid_timer_id, MAX_TIMERS. lia. Qed.

Lemma valid_timer_id_dec (id : Z) : {valid_timer_id id} + {~ valid_timer_id id}.
Proof. unfold valid_timer_id. destruct (decide (1 <= id <= 254)); auto. Qed.

(** Outside the range nothing is called and nothing changes. *)
Lemma DeleteTimer_out_of_range (id : Z) (s : TimerState) :
  ~ valid_timer_id id -> DeleteTimer id s = (ENOENT, s).
Proof. intros Hid. unfold DeleteTimer. rewrite id_guard_false; auto. Qed.

Lemma CreateTimer_out_of_range (id ms : Z) (s : TimerState) :
  ~ valid_timer_id id -> CreateTimer SIGRTMIN id ms s = (ENOENT, s).
Proof. intros Hid. unfold CreateTimer. rewrite id_guard_false; auto. Qed.

Lemma CreateTick_out_of_range (id ms : Z) (s : TimerState) :
  ~ valid_timer_id id -> CreateTick SIGRTMIN id ms s = (ENOENT, s).
Proof. intros Hid. unfold CreateTick. rewrite id_guard_false; auto. Qed.

(** Inside the range [DeleteTimer] calls [timer_delete] on the content of
    the slot and reports its outcome. *)
Lemma DeleteTimer_in_range (id : Z) (s : TimerState) :
  valid_timer_id id ->
  let t := default 0 (timers s !! Z.to_nat id) in
  let rc := (timer_delete t (os s)).1 in
  let o := (timer_delete t (os s)).2 in
  DeleteTimer id s =
    (if rc =? 0 then EOK else errno o,
     mkTimerState (timers s) o (calls s ++ [Call_timer_delete t])).
Proof.
  intros Hid. unfold DeleteTimer. rewrite id_guard_true by assumption.
  unfold bind, timers_get, os_timer_delete, os_errno, ret. simpl.
  destruct (timer_delete _ (os s)) as [rc o]. simpl.
  destruct (rc =? 0); reflexivity.
Qed.

Lemma CreateTimer_in_range (id ms : Z) (s : TimerState) :
  valid_timer_id id ->
  CreateTimer SIGRTMIN id ms s =
    (EOK, install SIGRTMIN id (one_shot ms) (after_delete id s)).
Proof.
  intros Hid. unfold CreateTimer. rewrite id_guard_true by assumption.
  unfold install, after_delete, one_shot, bind, timers_get. simpl.
  destruct (negb (default 0 (timers s !! Z.to_nat id) =? 0)).
  - destruct (DeleteTimer id s) as [r s1]. simpl.
    destruct (os_timer_create _ _ id s1) as [r2 s2]. simpl.
    destruct (os_timer_settime _ 0 _ s2) as [r3 s3]. reflexivity.
  - unfold ret at 1.
    destruct (os_timer_create _ _ id s) as [r2 s2]. simpl.
    destruct (os_timer_settime _ 0 _ s2) as [r3 s3]. reflexivity.
Qed.

Lemma CreateTick_in_range (id ms : Z) (s : TimerState) :
  valid_timer_id id ->
  CreateTick SIGRTMIN id ms s =
    (EOK, install SIGRTMIN id (periodic ms) (after_delete id s)).
Proof.
  intros Hid. unfold CreateTick. rewrite id_guard_true by assumption.
  unfold install, after_delete, periodic, bind, timers_get. simpl.
  destruct (negb (default 0 (timers s !! Z.to_nat id) =? 0)).
  - destruct (DeleteTimer id s) as [r s1]. simpl.
    destruct (os_timer_create _ _ id s1) as [r2 s2]. simpl.
    destruct (os_timer_settime _ 0 _ s2) as [r3 s3]. reflexivity.
  - unfold ret at 1.
    destruct (os_timer_create _ _ id s) as [r2 s2]. simpl.
    destruct (os_timer_settime _ 0 _ s2) as [r3 s3]. reflexivity.
Qed.

Lemma calls_install (id : Z) (its : itimerspec) (s : TimerState) :
  exists t,
    calls (install SIGRTMIN id its s) =
      calls s ++
        [Call_timer_create CLOCK_REALTIME
           (mkSigevent SIGEV_SIGNAL (TIMER_NOTIFICATION SIGRTMIN) id);
         Call_timer_settime t 0 its].
Proof.
  unfold install, os_timer_create, os_timer_settime.
  destruct (timer_create _ _ _ (os s)) as [[rc t] o]. simpl.
  destruct (timer_settime _ 0 its o) as [rc2 o2]. simpl.
  eexists. rewrite <- app_assoc. reflexivity.
Qed.


(** With nothing live in the slot no timer is deleted. *)
Lemma after_delete_empty_slot (id : Z) (s : TimerState) :
  default 0 (timers s !! Z.to_nat id) = 0 -> after_delete id s = s.
Proof. intros Hz. unfold after_delete. rewrite Hz. reflexivity. Qed.

Lemma after_delete_live_slot (id t : Z) (s : TimerState) :
  timers s !! Z.to_nat id = Some t -> t <> 0 ->
  after_delete id s = (DeleteTimer id s).2.
Proof.
  intros Hs Ht. unfold after_delete. rewrite Hs. simpl.
  destruct (Z.eqb_spec t 0); [contradiction | reflexivity].
Qed.

(** C4: [CreateTimer], [CreateTick] and [DeleteTimer] return [ENOENT]
    exactly when the timer id is outside [1, 254]; inside the range the
    not-found branch is never taken.  [DeleteTimer] passes on the error
    number of a failed [timer_delete], which POSIX documents as [EINVAL];
    the hypothesis says that it is not [ENOENT]. *)
Theorem C4_not_found_iff_id_out_of_range (id ms : Z) (s : TimerState) :
  (forall t o, (timer_delete t o).1 <> 0 ->
               errno (timer_delete t o).2 <> ENOENT) ->
  ((CreateTimer SIGRTMIN id ms s).1 = ENOENT <-> ~ (1 <= id <= 254)) /\
  ((CreateTick SIGRTMIN id ms s).1 = ENOENT <-> ~ (1 <= id <= 254)) /\
  ((DeleteTimer id s).1 = ENOENT <-> ~ (1 <= id <= 254)).
Proof.
  intros Herrno. fold (valid_timer_id id).
  destruct (valid_timer_id_dec id) as [Hin | Hout].
  - rewrite CreateTimer_in_range, CreateTick_in_range,
      DeleteTimer_in_range by assumption.
    cbn [fst]. repeat split; intros Hr; try contradiction;
      try discriminate Hr.
    destruct (Z.eqb_spec (timer_delete (default 0 (timers s !! Z.to_nat id))
                            (os s)).1 0) as [Hrc | Hrc].
    + discriminate Hr.
    + apply Herrno in Hrc. contradiction.
  - rewrite CreateTimer_out_of_range, CreateTick_out_of_range,
      DeleteTimer_out_of_range by assumption.
    cbn [fst]. repeat split; auto.
Qed.

(** C5: for an id in [1, 254] whose slot holds a live timer [t] (a
    nonzero entry), [CreateTimer] and [CreateTick] first run
    [DeleteTimer] on the same id, which calls [timer_delete] on [t], and
    only then call [timer_create] on the slot and [timer_settime]. *)
Theorem C5_create_deletes_live_timer_first
    (id ms t : Z) (s : TimerState) :
  1 <= id <= 254 ->
  timers s !! Z.to_nat id = Some t -> t <> 0 ->
  let te := mkSigevent SIGEV_SIGNAL (TIMER_NOTIFICATION SIGRTMIN) id in
  (CreateTimer SIGRTMIN id ms s).2
    = install SIGRTMIN id (one_shot ms) (DeleteTimer id s).2 /\
  (CreateTick SIGRTMIN id ms s).2
    = install SIGRTMIN id (periodic ms) (DeleteTimer id s).2 /\
  calls (DeleteTimer id s).2 = calls s ++ [Call_timer_delete t] /\
  (exists t',
      calls (CreateTimer SIGRTMIN id ms s).2
        = calls s ++ [Call_timer_delete t;
                      Call_timer_create CLOCK_REALTIME te;
                      Call_timer_settime t' 0 (one_shot ms)]) /\
  (exists t',
      calls (CreateTick SIGRTMIN id ms s).2
        = calls s ++ [Call_timer_delete t;
                      Call_timer_create CLOCK_REALTIME te;
                      Call_timer_settime t' 0 (periodic ms)]).
Proof.
  intros Hid Hslot Ht te. fold (valid_timer_id id) in Hid.
  rewrite CreateTimer_in_range, CreateTick_in_range by assumption.
  rewrite (after_delete_live_slot id t s Hslot Ht). cbn [snd].
  assert (Hdel : calls (DeleteTimer id s).2
                 = calls s ++ [Call_timer_delete t]).
  { rewrite DeleteTimer_in_range by assumption. cbn [snd calls].
    rewrite Hslot. reflexivity. }
  repeat split; try assumption.
  - destruct (calls_install id (one_shot ms) (DeleteTimer id s).2)
      as [t' Hc].
    exists t'. rewrite Hc, Hdel, <- app_assoc. reflexivity.
  - destruct (calls_install id (periodic ms) (DeleteTimer id s).2)
      as [t' Hc].
    exists t'. rewrite Hc, Hdel, <- app_assoc. reflexivity.
Qed.

(** C10: for an id in [1, 254] and any interval, [CreateTimer] and
    [CreateTick] return [EOK] whatever [timer_create] and
    [timer_settime] return: the statement holds for every behaviour of
    the operating system. *)
Theorem C10_create_returns_EOK_unconditionally
    (id ms : Z) (s : TimerState) :
  1 <= id <= 254 ->
  (CreateTimer SIGRTMIN id ms s).1 = EOK /\
  (CreateTick SIGRTMIN id ms s).1 = EOK.
Proof.
  intros Hid. fold (valid_timer_id id) in Hid.
  rewrite CreateTimer_in_range, CreateTick_in_range by assumption.
  split; reflexivity.
Qed.

End timer_properties.

(** Runs of timer.c on the two timer services. *)

Lemma posix_timer_delete_errno (t : Z) (o : posix_timers) :
  (timer_delete t o).1 <> 0 -> errno (timer_delete t o).2 <> ENOENT.
Proof.
  simpl. destruct (is_live t o); simpl; intros Hrc.
  - contradiction.
  - discriminate.
Qed.

Lemma C4_witness :
  ((CreateTimer 34 255 1000 timer_state0).1 = ENOENT <-> ~ (1 <= 255 <= 254)) /\
  ((CreateTick 34 255 1000 timer_state0).1 = ENOENT <-> ~ (1 <= 255 <= 254)) /\
  ((DeleteTimer 255 timer_state0).1 = ENOENT <-> ~ (1 <= 255 <= 254)).
Proof.
  apply (C4_not_found_iff_id_out_of_range 34 255 1000 timer_state0).
  exact posix_timer_delete_errno.
Defined.

(** A second creation on slot 3 deletes the timer of the first. *)
Example timer_state1_slot : timers timer_state1 !! 3%nat = Some 1.
Proof. reflexivity. Qed.

Example timer_state1_calls :
  calls (CreateTick 34 3 250 timer_state1).2 =
    [Call_timer_create CLOCK_REALTIME (mkSigevent SIGEV_SIGNAL 39 3);
     Call_timer_settime 1 0 (mkItimerspec (mkTimespec 0 0) (mkTimespec 1 0));
     Call_timer_delete 1;
     Call_timer_create CLOCK_REALTIME (mkSigevent SIGEV_SIGNAL 39 3);
     Call_timer_settime 2 0
       (mkItimerspec (mkTimespec 0 250000000) (mkTimespec 0 250000000))].
Proof. reflexivity. Qed.

Lemma C5_witness :
  let te := mkSigevent SIGEV_SIGNAL (TIMER_NOTIFICATION 34) 3 in
  (CreateTimer 34 3 250 timer_state1).2
    = install 34 3 (one_shot 250) (DeleteTimer 3 timer_state1).2 /\
  (CreateTick 34 3 250 timer_state1).2
    = install 34 3 (periodic 250) (DeleteTimer 3 timer_state1).2 /\
  calls (DeleteTimer 3 timer_state1).2
    = calls timer_state1 ++ [Call_timer_delete 1] /\
  (exists t',
      calls (CreateTimer 34 3 250 timer_state1).2
        = calls timer_state1 ++ [Call_timer_delete 1;
                                 Call_timer_create CLOCK_REALTIME te;
                                 Call_timer_settime t' 0 (one_shot 250)]) /\
  (exists t',
      calls (CreateTick 34 3 250 timer_state1).2
        = calls timer_state1 ++ [Call_timer_delete 1;
                                 Call_timer_create CLOCK_REALTIME te;
                                 Call_timer_settime t' 0 (periodic 250)]).
Proof.
  apply (C5_create_deletes_live_timer_first 34 3 250 1 timer_state1).
  - lia.
  - reflexivity.
  - lia.
Defined.

(** On the exhausted service every call fails, and the creation still
    reports success. *)
Example exhausted_timer_create_fails :
  (@timer_create unit exhausted_TimerOS CLOCK_REALTIME
     (mkSigevent SIGEV_SIGNAL 39 7) 0 tt).1 = (-1, 0).
Proof. reflexivity. Qed.

Lemma C10_witness :
  (@CreateTimer unit exhausted_TimerOS 34 7 1000 exhausted_state0).1 = EOK /\
  (@CreateTick unit exhausted_TimerOS 34 7 1000 exhausted_state0).1 = EOK.
Proof.
  apply (@C10_create_returns_EOK_unconditionally unit exhausted_TimerOS
           34 7 1000 exhausted_state0).
  lia.
Defined.

(** ** 10. Properties of the guard matcher *)

Section guard_properties.
Variable SIGRTMIN : Z.

Lemma timer_test_iff (n : VarNode) (signum id : Z) :
  bool_decide (operation n = VA_TIMER)
    && (signum =? TIMER_NOTIFICATION SIGRTMIN)
    && (val_ui n =? uint_of_int id) = true
  <-> operation n = VA_TIMER /\ signum = TIMER_NOTIFICATION SIGRTMIN
      /\ val_ui n = uint_of_int id.
Proof. rewrite !andb_true_iff, bool_decide_eq_true, !Z.eqb_eq. tauto. Qed.

Lemma sysvar_test_iff (n : VarNode) (signum id : Z) :
  bool_decide (operation n = VA_SYSVAR)
    && (signum =? VAR_NOTIFICATION SIGRTMIN)
    && (hVar n =? uint_of_int id) = true
  <-> operation n = VA_SYSVAR /\ signum = VAR_NOTIFICATION SIGRTMIN
      /\ hVar n = uint_of_int id.
Proof. rewrite !andb_true_iff, bool_decide_eq_true, !Z.eqb_eq. tauto. Qed.

(** A tree that is not [NULL] gives [EOK] or [ENOENT], never [EINVAL]. *)
Lemma CheckInConditions_Var (n : VarNode) (l r : VariablePtr)
    (signum id : Z) :
  CheckInConditions SIGRTMIN (Var n l r) signum id = EOK \/
  CheckInConditions SIGRTMIN (Var n l r) signum id = ENOENT.
Proof.
  simpl.
  repeat match goal with
         | |- context [if ?b then _ else _] => destruct b
         end; auto.
Qed.

Lemma CheckInConditions_EOK_iff (p : VariablePtr) (signum id : Z) :
  CheckInConditions SIGRTMIN p signum id = EOK
  <-> references SIGRTMIN signum id p.
Proof.
  unfold references.
  induction p as [| n l IHl r IHr]; simpl.
  - split; [discriminate | inversion 1].
  - destruct (bool_decide (operation n = VA_TIMER) && _ && _) eqn:Et.
    { split; [intros _ | reflexivity].
      apply Contains_root. left. apply timer_test_iff. exact Et. }
    destruct (bool_decide (operation n = VA_SYSVAR) && _ && _) eqn:Es.
    { split; [intros _ | reflexivity].
      apply Contains_root. right. apply sysvar_test_iff. exact Es. }
    destruct (Z.eqb_spec (CheckInConditions SIGRTMIN l signum id) EOK)
      as [El | El].
    { split; [intros _ | reflexivity].
      apply Contains_left, IHl, El. }
    destruct (Z.eqb_spec (CheckInConditions SIGRTMIN r signum id) EOK)
      as [Er | Er].
    { split; [intros _ | reflexivity].
      apply Contains_right, IHr, Er. }
    split; [discriminate |].
    intros Hc. inversion Hc as [? ? ? Hn | ? ? ? Hl | ? ? ? Hr]; subst.
    + destruct Hn as [Hn | Hn].
      * apply timer_test_iff in Hn. congruence.
      * apply sysvar_test_iff in Hn. congruence.
    + apply IHl in Hl. contradiction.
    + apply IHr in Hr. contradiction.
Qed.

(** For a payload that is not negative the comparison is plain equality
    of the stored value, or of the handle, with the payload. *)
Lemma CheckInConditions_EOK_iff_plain (p : VariablePtr) (signum id : Z) :
  0 <= id < 2 ^ 32 ->
  CheckInConditions SIGRTMIN p signum id = EOK
  <-> Contains
        (fun n =>
           (operation n = VA_TIMER /\ signum = TIMER_NOTIFICATION SIGRTMIN
            /\ val_ui n = id)
           \/ (operation n = VA_SYSVAR /\ signum = VAR_NOTIFICATION SIGRTMIN
               /\ hVar n = id)) p.
Proof.
  intros Hid. rewrite CheckInConditions_EOK_iff.
  unfold references, node_references.
  rewrite (uint_of_int_small id Hid). reflexivity.
Qed.

(** C2: for a guard tree that is not [NULL], [CheckInConditions] returns
    [EOK] if and only if the tree contains a [TIMER] literal with the
    stored value [id] when the event is a timer notification, or a
    [SYSVAR] node with the handle [id] when it is a variable
    notification, containment running through the left and right
    subtrees; otherwise it returns [ENOENT]. *)
Theorem C2_CheckInConditions_found_iff_referenced
    (pVariable : VariablePtr) (signum id : Z) :
  pVariable <> NULLVAR ->
  (CheckInConditions SIGRTMIN pVariable signum id = EOK
   <-> references SIGRTMIN signum id pVariable) /\
  (~ references SIGRTMIN signum id pVariable ->
   CheckInConditions SIGRTMIN pVariable signum id = ENOENT).
Proof.
  intros Hnn. split.
  - apply CheckInConditions_EOK_iff.
  - intros Hno. destruct pVariable as [| n l r]; [contradiction |].
    destruct (CheckInConditions_Var n l r signum id) as [Hr | Hr].
    + apply CheckInConditions_EOK_iff in Hr. contradiction.
    + exact Hr.
Qed.

End guard_properties.

(** The guard [/sys/alarm/trigger == 1] of test/example2.sm references a
    change of [/sys/alarm/trigger] and no timer. *)
Lemma C2_witness :
  let guard := CreateVariable VA_EQUALS v_trigger (num 1) in
  (CheckInConditions 34 guard (VAR_NOTIFICATION 34) h_trigger = EOK
   <-> references 34 (VAR_NOTIFICATION 34) h_trigger guard) /\
  (~ references 34 (VAR_NOTIFICATION 34) h_trigger guard ->
   CheckInConditions 34 guard (VAR_NOTIFICATION 34) h_trigger = ENOENT).
Proof.
  apply (C2_CheckInConditions_found_iff_referenced 34
           (CreateVariable VA_EQUALS v_trigger (num 1))
           (VAR_NOTIFICATION 34) h_trigger).
  discriminate.
Defined.

Example guard_trigger_found :
  CheckInConditions 34 (CreateVariable VA_EQUALS v_trigger (num 1))
    (VAR_NOTIFICATION 34) h_trigger = EOK.
Proof. reflexivity. Qed.

Example guard_trigger_no_timer :
  CheckInConditions 34 (CreateVariable VA_EQUALS v_trigger (num 1))
    sig_timer 1 = ENOENT.
Proof. reflexivity. Qed.

Example guard_timer_found :
  CheckInConditions 34 timer_1 (TIMER_NOTIFICATION 34) 1 = EOK
  /\ CheckInConditions 34 timer_1 (TIMER_NOTIFICATION 34) 2 = ENOENT
  /\ CheckInConditions 34 NULLVAR (TIMER_NOTIFICATION 34) 1 = EINVAL.
Proof. repeat split. Qed.

(** ** 11. Properties of the state runtime *)

Section engine_properties.
Context {W : Type} `{VarAction W}.
Variable SIGRTMIN : Z.

(** Calls of the action library leave the machine and its output alone. *)
Lemma call_ProcessExpr_frame (p : VariablePtr) (e : Engine) :
  machine (call_ProcessExpr p e).2 = machine e /\
  output (call_ProcessExpr p e).2 = output e.
Proof.
  unfold call_ProcessExpr.
  destruct (ProcessExpr _ p (world e)) as [r w]. split; reflexivity.
Qed.

Lemma call_ProcessCompoundStatement_frame (s : list Statement) (e : Engine) :
  machine (call_ProcessCompoundStatement s e).2 = machine e /\
  output (call_ProcessCompoundStatement s e).2 = output e.
Proof.
  unfold call_ProcessCompoundStatement.
  destruct (ProcessCompoundStatement _ s (world e)) as [r w].
  split; reflexivity.
Qed.

(** [ExitState] never writes [pCurrentState]. *)
Lemma ExitState_machine (e : Engine) : machine (ExitState e).2 = machine e.
Proof.
  unfold ExitState, bind, get_machine, emit, ret.
  destruct (pCurrentState (machine e)) as [pState |].
  - destruct (verbose (machine e)); simpl;
      (destruct (exit pState) as [x |]; [| reflexivity]);
      (destruct (exit_pStatements x) as [| s ss]; [reflexivity |]);
      match goal with
      | |- machine (call_ProcessCompoundStatement ?l ?e1).2 = _ =>
          exact (proj1 (call_ProcessCompoundStatement_frame l e1))
      end.
  - reflexivity.
Qed.

(** A failed lookup: the error is logged, [ENOENT] is returned and
    nothing else changes. *)
Lemma EnterState_not_found (target : string) (e : Engine) :
  FindState (machine e) (Some target) = None ->
  EnterState (Some target) e =
    (ENOENT,
     mkEngine (machine e) (world e)
       (output e ++ [Syslog LOG_ERR ("Cannot find state: " +:+ target)])).
Proof.
  intros Hf. unfold EnterState, bind, get_machine.
  rewrite Hf. reflexivity.
Qed.

(** The lookup only reads the list of states. *)
Lemma FindState_same_list (m m' : StateMachine) (name : option string) :
  pStateList m' = pStateList m -> FindState m' name = FindState m name.
Proof. intros Hl. unfold FindState. rewrite Hl. reflexivity. Qed.

(** [CheckTransition] on a transition with a target name, step by step. *)
Lemma CheckTransition_eq
    (t : Transition) (target : string) (signum id : Z) (e : Engine) :
  statename t = Some target ->
  CheckTransition SIGRTMIN (Some t) signum id e =
    if CheckInConditions SIGRTMIN (trans_pVariable t) signum id =? EOK then
      let '(r, ui, e1) := call_ProcessExpr (trans_pVariable t) e in
      if r =? EOK then
        if negb (ui =? 0) then
          let '(rx, e2) := ExitState e1 in
          if rx =? EOK then EnterState (Some target) e2 else (rx, e2)
        else (ENOTSUP, e1)
      else (r, e1)
    else (CheckInConditions SIGRTMIN (trans_pVariable t) signum id, e).
Proof.
  intros Hname. unfold CheckTransition. rewrite Hname.
  destruct (CheckInConditions SIGRTMIN (trans_pVariable t) signum id =? EOK);
    [| reflexivity].
  unfold bind.
  destruct (call_ProcessExpr (trans_pVariable t) e) as [[r ui] e1].
  destruct (r =? EOK); [| reflexivity].
  destruct (negb (ui =? 0)); [| reflexivity]. cbn [Z.eqb EOK].
  destruct (ExitState e1) as [rx e2].
  destruct (rx =? EOK); reflexivity.
Qed.

(** A check returns [EOK] only when the guard fired and both the exit of
    the current state and the enter of the target succeeded. *)
Lemma CheckTransition_EOK_fires
    (t : Transition) (signum id : Z) (e e' : Engine) :
  CheckTransition SIGRTMIN (Some t) signum id e = (EOK, e') ->
  guard_fires SIGRTMIN signum id t e /\
  exists target e2,
    statename t = Some target /\
    ExitState (call_ProcessExpr (trans_pVariable t) e).2 = (EOK, e2) /\
    EnterState (Some target) e2 = (EOK, e').
Proof.
  intros Hck. unfold guard_fires.
  destruct (statename t) as [target |] eqn:Hname.
  2:{ unfold CheckTransition in Hck. rewrite Hname in Hck. discriminate. }
  rewrite (CheckTransition_eq t target signum id e Hname) in Hck.
  destruct (Z.eqb_spec
              (CheckInConditions SIGRTMIN (trans_pVariable t) signum id) EOK)
    as [Hc | Hc].
  2:{ injection Hck as Hr _. contradiction. }
  destruct (call_ProcessExpr (trans_pVariable t) e) as [[r ui] e1].
  cbn [fst snd].
  destruct (Z.eqb_spec r EOK) as [Hr | Hr].
  2:{ injection Hck as Hr' _. contradiction. }
  destruct (Z.eqb_spec ui 0) as [Hu | Hu]; cbn [negb] in Hck;
    [discriminate |].
  destruct (ExitState e1) as [rx e2].
  destruct (Z.eqb_spec rx EOK) as [Hrx | Hrx].
  2:{ injection Hck as Hr' _. contradiction. }
  subst r rx. split.
  - split; [exact Hc |]. exists ui. split; [reflexivity | exact Hu].
  - exists target, e2. repeat split. exact Hck.
Qed.

(** C3: when the target of a transition does not resolve to a state of
    the machine, [EnterState] logs the failure, returns [ENOENT] and
    leaves the engine, in particular [pCurrentState], as it was; the
    transition as a whole leaves [pCurrentState] unchanged, and when its
    guard fired and the exit of the current state succeeded it returns
    [ENOENT]. *)
Theorem C3_unresolved_target_keeps_current_state
    (t : Transition) (target : string) (signum id : Z) (e : Engine) :
  statename t = Some target ->
  FindState (machine e) (Some target) = None ->
  EnterState (Some target) e =
    (ENOENT,
     mkEngine (machine e) (world e)
       (output e ++ [Syslog LOG_ERR ("Cannot find state: " +:+ target)])) /\
  pCurrentState (machine (CheckTransition SIGRTMIN (Some t) signum id e).2)
    = pCurrentState (machine e) /\
  (guard_fires SIGRTMIN signum id t e ->
   (ExitState (call_ProcessExpr (trans_pVariable t) e).2).1 = EOK ->
   (CheckTransition SIGRTMIN (Some t) signum id e).1 = ENOENT).
Proof.
  intros Hname Hfind.
  split; [apply EnterState_not_found; exact Hfind |].
  rewrite (CheckTransition_eq t target signum id e Hname).
  unfold guard_fires.
  destruct (Z.eqb_spec
              (CheckInConditions SIGRTMIN (trans_pVariable t) signum id) EOK)
    as [Hc | Hc].
  2:{ split; [reflexivity |]. intros [Hc' _]. contradiction. }
  pose proof (call_ProcessExpr_frame (trans_pVariable t) e) as [Hm1 _].
  destruct (call_ProcessExpr (trans_pVariable t) e) as [[r ui] e1].
  cbn [fst snd] in *.
  destruct (Z.eqb_spec r EOK) as [Hr | Hr].
  2:{ split; [cbn [snd]; rewrite Hm1; reflexivity |].
      intros [_ [ui' [Heq _]]]. congruence. }
  destruct (Z.eqb_spec ui 0) as [Hu | Hu]; cbn [negb].
  { split; [cbn [snd]; rewrite Hm1; reflexivity |].
    intros [_ [ui' [Heq Hnz]]]. congruence. }
  pose proof (ExitState_machine e1) as Hm2.
  destruct (ExitState e1) as [rx e2]. cbn [fst snd] in *.
  destruct (Z.eqb_spec rx EOK) as [Hrx | Hrx].
  - assert (Hf2 : FindState (machine e2) (Some target) = None).
    { rewrite Hm2, Hm1. exact Hfind. }
    rewrite (EnterState_not_found target e2 Hf2). cbn [fst snd machine].
    split; [rewrite Hm2, Hm1; reflexivity |]. intros _ _. reflexivity.
  - cbn [fst snd]. split; [rewrite Hm2, Hm1; reflexivity |].
    intros _ Hok. contradiction.
Qed.

(** C6 (amended): for a state whose entry block is missing, [EnterState]
    makes it the current state, logs the condition through [syslog], runs
    no statement and returns [EINVAL]; for a current state whose exit
    block is missing, [ExitState] logs the condition, runs no statement
    and returns [EINVAL].  A block that is present with an empty list of
    statements runs no statement either, and returns [EOK].  Each part
    has its own hypotheses: entering does not depend on the exit block of
    the current state, nor exiting on any entry block. *)
Theorem C6_missing_block_logged_and_EINVAL (e : Engine) :
  (forall (target : string) (pTarget : State),
      FindState (machine e) (Some target) = Some pTarget ->
      entry pTarget = None ->
      EnterState (Some target) e =
        (EINVAL,
         mkEngine
           (mkStateMachine (hVarServer (machine e)) (Some pTarget)
                           (verbose (machine e)) (pStateList (machine e)))
           (world e)
           ((output e ++
             (if verbose (machine e)
              then [Stdout ("Enter State: " +:+ state_id pTarget +:+ nl)]
              else [])) ++
            [Syslog LOG_ERR
               ("State '" +:+ target +:+ "' has no entry actions")])))
  /\
  (forall pCurrent : State,
      pCurrentState (machine e) = Some pCurrent ->
      exit pCurrent = None ->
      ExitState e =
        (EINVAL,
         mkEngine (machine e) (world e)
           ((output e ++
             (if verbose (machine e)
              then [Stdout ("Exit State: " +:+ state_id pCurrent +:+ nl)]
              else [])) ++
            [Syslog LOG_ERR
               ("State '" +:+ state_id pCurrent
                +:+ "' has no exit actions")])))
  /\
  (forall (target : string) (pTarget : State) (decls : list VariablePtr),
      FindState (machine e) (Some target) = Some pTarget ->
      entry pTarget = Some (mkStateEntry decls []) ->
      (EnterState (Some target) e).1 = EOK /\
      world (EnterState (Some target) e).2 = world e)
  /\
  (forall (pCurrent : State) (decls : list VariablePtr),
      pCurrentState (machine e) = Some pCurrent ->
      exit pCurrent = Some (mkStateExit decls []) ->
      (ExitState e).1 = EOK /\ world (ExitState e).2 = world e).
Proof.
  split; [| split; [| split]].
  - intros target pTarget Hfind Hentry.
    unfold EnterState, bind, get_machine. rewrite Hfind.
    destruct (verbose (machine e)) eqn:Hv; simpl; rewrite Hentry; simpl;
      rewrite ?Hv, ?app_nil_r; reflexivity.
  - intros pCurrent Hcur Hexit.
    unfold ExitState, bind, get_machine. rewrite Hcur.
    destruct (verbose (machine e)) eqn:Hv; simpl; rewrite Hexit; simpl;
      rewrite ?Hv, ?app_nil_r; reflexivity.
  - intros target pTarget decls Hfind Hentry.
    unfold EnterState, bind, get_machine. rewrite Hfind.
    destruct (verbose (machine e)); simpl; rewrite Hentry; split;
      reflexivity.
  - intros pCurrent decls Hcur Hexit.
    unfold ExitState, bind, get_machine. rewrite Hcur.
    destruct (verbose (machine e)); simpl; rewrite Hexit; split;
      reflexivity.
Qed.

(** A block that is present and empty, on the other hand, succeeds. *)
Lemma EnterState_empty_block
    (target : string) (pTarget : State) (decls : list VariablePtr)
    (e : Engine) :
  FindState (machine e) (Some target) = Some pTarget ->
  entry pTarget = Some (mkStateEntry decls []) ->
  (EnterState (Some target) e).1 = EOK.
Proof.
  intros Hfind Hentry. unfold EnterState, bind, get_machine.
  rewrite Hfind.
  destruct (verbose (machine e)); simpl; rewrite Hentry; reflexivity.
Qed.

Lemma ExitState_empty_block
    (pCurrent : State) (decls : list VariablePtr) (e : Engine) :
  pCurrentState (machine e) = Some pCurrent ->
  exit pCurrent = Some (mkStateExit decls []) ->
  (ExitState e).1 = EOK.
Proof.
  intros Hcur Hexit. unfold ExitState, bind, get_machine.
  rewrite Hcur.
  destruct (verbose (machine e)); simpl; rewrite Hexit; reflexivity.
Qed.

End engine_properties.

(** ** 12. Properties of the dispatch *)

Section dispatch_properties.
Context {W : Type} `{VarAction W}.
Variable SIGRTMIN : Z.

Lemma last_cons {A : Type} (a d : A) (l : list A) :
  List.last (a :: l) d = List.last l a.
Proof.
  revert a d. induction l as [| b l IH]; intros a d; [reflexivity |].
  change (List.last (a :: b :: l) d) with (List.last (b :: l) d).
  rewrite (IH b d), (IH b a). reflexivity.
Qed.

(** The loop either checks every transition, none of them returning
    [EOK], or stops at the first transition whose check returns [EOK]
    and leaves the engine as that check left it. *)
Lemma HandleSignal_loop_stops (ts : list Transition) :
  forall (r0 signum id : Z) (e : Engine) (r : Z) (e' : Engine),
    HandleSignal_loop SIGRTMIN ts r0 signum id e = (r, e') ->
    (exists rs,
        Checks SIGRTMIN signum id ts e rs e' /\
        Forall (fun x => x <> EOK) rs /\
        r = List.last rs r0)
    \/
    (exists pre t post rs e1,
        ts = pre ++ t :: post /\
        Checks SIGRTMIN signum id pre e rs e1 /\
        Forall (fun x => x <> EOK) rs /\
        CheckTransition SIGRTMIN (Some t) signum id e1 = (EOK, e') /\
        r = EOK).
Proof.
  induction ts as [| t ts IH]; intros r0 signum id e r e' Hloop.
  - injection Hloop as <- <-. left. exists [].
    repeat split; constructor.
  - cbn [HandleSignal_loop] in Hloop. unfold bind in Hloop.
    destruct (CheckTransition SIGRTMIN (Some t) signum id e)
      as [r1 e1] eqn:Hcheck.
    destruct (Z.eqb_spec r1 EOK) as [Hr1 | Hr1].
    + injection Hloop as <- <-. subst r1. right.
      exists [], t, ts, [], e. repeat split; try constructor.
      exact Hcheck.
    + apply IH in Hloop.
      destruct Hloop as [(rs & Hch & Hall & Hlast)
                        | (pre & t' & post & rs & e2 & Hts & Hch & Hall
                           & Hfire & Hr)].
      * left. exists (r1 :: rs). repeat split.
        -- econstructor; eassumption.
        -- constructor; assumption.
        -- rewrite last_cons. exact Hlast.
      * right. exists (t :: pre), t', post, (r1 :: rs), e2.
        repeat split; try assumption.
        -- rewrite Hts. reflexivity.
        -- econstructor; eassumption.
        -- constructor; assumption.
Qed.

(** The loop of [HandleSignal], seen from outside: the transitions of the
    state that was current when the dispatch began are checked in the
    order of their definition, and the iteration stops after the first
    check that returns [EOK]; every check before it returned something
    else, and the engine is left as that check left it, up to the clearing
    of the active timer.  A check that returns something else does not
    stop the iteration, whatever it did to the engine. *)
Theorem HandleSignal_stops_after_first_EOK
    (signum id : Z) (e : Engine) (pState : State) :
  pCurrentState (machine e) = Some pState ->
  let e0 := if signum =? TIMER_NOTIFICATION SIGRTMIN
            then (call_SetTimer id e).2 else e in
  let result := (HandleSignal SIGRTMIN signum id e).1 in
  exists e1,
    (HandleSignal SIGRTMIN signum id e).2 = (call_SetTimer 0 e1).2 /\
    ((exists rs,
         Checks SIGRTMIN signum id (trans pState) e0 rs e1 /\
         Forall (fun x => x <> EOK) rs /\
         result = List.last rs ENOENT)
     \/
     (exists pre t post rs e_t,
         trans pState = pre ++ t :: post /\
         Checks SIGRTMIN signum id pre e0 rs e_t /\
         Forall (fun x => x <> EOK) rs /\
         CheckTransition SIGRTMIN (Some t) signum id e_t = (EOK, e1) /\
         guard_fires SIGRTMIN signum id t e_t /\
         result = EOK)).
Proof.
  intros Hcur e0 result. subst result.
  assert (He0 : (if signum =? TIMER_NOTIFICATION SIGRTMIN
                 then call_SetTimer id else ret ()) e = ((), e0)).
  { subst e0. destruct (signum =? TIMER_NOTIFICATION SIGRTMIN); reflexivity. }
  assert (Hm0 : machine e0 = machine e).
  { subst e0. destruct (signum =? TIMER_NOTIFICATION SIGRTMIN); reflexivity. }
  unfold HandleSignal, bind. rewrite He0. unfold get_machine.
  rewrite Hm0, Hcur.
  destruct (HandleSignal_loop SIGRTMIN (trans pState) ENOENT signum id e0)
    as [r e1] eqn:Hloop.
  exists e1. split; [reflexivity |].
  apply HandleSignal_loop_stops in Hloop.
  destruct Hloop as [Hall | (pre & t & post & rs & e_t & Hts & Hch & Hne
                            & Hfire & Hr)].
  - left. exact Hall.
  - right. exists pre, t, post, rs, e_t. repeat split; try assumption.
    + apply (CheckTransition_EOK_fires SIGRTMIN t signum id e_t e1 Hfire).
    + apply (CheckTransition_EOK_fires SIGRTMIN t signum id e_t e1 Hfire).
Qed.

End dispatch_properties.

(** *** Runs of the engine *)

(** test/example2.sm goes from [init] through [disarmed] and [arming] to
    [armed]; the change of the trigger in [disarmed] and the timer 2 in
    [arming] are referenced by no guard and give [ENOENT]. *)
Example example2_run :
  let run := RunStateMachine 34 example2_signals example2_start in
  run.1 = EOK /\
  state_id <$> pCurrentState (machine run.2) = Some "armed"%string /\
  output run.2 =
    [Stdout ("Enter State: init" +:+ nl);
     Stdout_received sig_timer 1;
     Stdout ("Exit State: init" +:+ nl);
     Stdout ("Enter State: disarmed" +:+ nl);
     Stdout_handled sig_timer 1 EOK;
     Stdout_received sig_var h_trigger;
     Stdout_handled sig_var h_trigger ENOENT;
     Stdout_received sig_var h_activate;
     Stdout ("Exit State: disarmed" +:+ nl);
     Stdout ("Enter State: arming" +:+ nl);
     Stdout_handled sig_var h_activate EOK;
     Stdout_received sig_timer 2;
     Stdout_handled sig_timer 2 ENOENT;
     Stdout_received sig_timer 1;
     Stdout ("Exit State: arming" +:+ nl);
     Stdout ("Enter State: armed" +:+ nl);
     Stdout_handled sig_timer 1 EOK].
Proof. repeat split. Qed.

(** C1: the code does not stop at the first transition whose guard
    references the event and evaluates nonzero.  In state [a] the first
    such transition names a state that does not exist: its exit block has
    run, the enter fails, and the iteration goes on to the second
    transition, whose exit and enter are executed in the same dispatch.
    In state [first] the entry block of the first target fails after
    [pCurrentState] was switched: the iteration goes on with the
    transitions of [first], leaves [second] again and enters [third], so
    that the machine changes state twice in one dispatch. *)
Lemma C1_dispatch_goes_on_after_fired_guard :
  let run := HandleSignal 34 sig_var h_activate ghost_engine in
  let run3 :=
    @HandleSignal test_world strict_VarAction 34 sig_var h_activate
      three_state_engine in
  (trans state_a = [to_ghost; to_b] /\
   guard_fires 34 sig_var h_activate to_ghost ghost_engine /\
   run.1 = EOK /\
   output run.2 =
     [Stdout ("Exit State: a" +:+ nl);
      Syslog LOG_ERR "Cannot find state: ghost";
      Stdout ("Exit State: a" +:+ nl);
      Stdout ("Enter State: b" +:+ nl)] /\
   executed (world run.2) = [exit_a; exit_a; entry_b] /\
   pCurrentState (machine run.2) = Some state_b)
  /\
  (trans state_first = [to_second; to_third] /\
   @guard_fires test_world strict_VarAction 34 sig_var h_activate to_second
     three_state_engine /\
   (@CheckTransition test_world strict_VarAction 34 (Some to_second) sig_var
      h_activate three_state_engine).1 = ENOENT /\
   run3.1 = EOK /\
   output run3.2 =
     [Stdout ("Exit State: first" +:+ nl);
      Stdout ("Enter State: second" +:+ nl);
      Stdout ("Exit State: second" +:+ nl);
      Stdout ("Enter State: third" +:+ nl)] /\
   executed (world run3.2)
   = [exit_a; create_timer_300; exit_second; entry_third] /\
   pCurrentState (machine run3.2) = Some state_third).
Proof.
  cbv zeta. split.
  - split; [reflexivity |]. split.
    + split; [reflexivity |]. exists 1. split; [reflexivity | discriminate].
    + repeat split; reflexivity.
  - split; [reflexivity |]. split.
    + split; [reflexivity |]. exists 1. split; [reflexivity | discriminate].
    + repeat split; reflexivity.
Qed.

Lemma HandleSignal_stops_after_first_EOK_run :
  let e0 := if sig_var =? TIMER_NOTIFICATION 34
            then (call_SetTimer h_activate ghost_engine).2
            else ghost_engine in
  let result := (HandleSignal 34 sig_var h_activate ghost_engine).1 in
  exists e1,
    (HandleSignal 34 sig_var h_activate ghost_engine).2
      = (call_SetTimer 0 e1).2 /\
    ((exists rs,
         Checks 34 sig_var h_activate (trans state_a) e0 rs e1 /\
         Forall (fun x => x <> EOK) rs /\
         result = List.last rs ENOENT)
     \/
     (exists pre t post rs e_t,
         trans state_a = pre ++ t :: post /\
         Checks 34 sig_var h_activate pre e0 rs e_t /\
         Forall (fun x => x <> EOK) rs /\
         CheckTransition 34 (Some t) sig_var h_activate e_t = (EOK, e1) /\
         guard_fires 34 sig_var h_activate t e_t /\
         result = EOK)).
Proof.
  apply (HandleSignal_stops_after_first_EOK 34 sig_var h_activate
           ghost_engine state_a).
  reflexivity.
Defined.

Lemma C3_witness :
  EnterState (Some "ghost"%string) ghost_engine =
    (ENOENT,
     mkEngine (machine ghost_engine) (world ghost_engine)
       (output ghost_engine
        ++ [Syslog LOG_ERR ("Cannot find state: " +:+ "ghost")])) /\
  pCurrentState
    (machine (CheckTransition 34 (Some to_ghost) sig_var h_activate
                ghost_engine).2)
    = pCurrentState (machine ghost_engine) /\
  (guard_fires 34 sig_var h_activate to_ghost ghost_engine ->
   (ExitState (call_ProcessExpr (trans_pVariable to_ghost) ghost_engine).2).1
     = EOK ->
   (CheckTransition 34 (Some to_ghost) sig_var h_activate ghost_engine).1
     = ENOENT).
Proof.
  apply (C3_unresolved_target_keeps_current_state 34 to_ghost "ghost"
           sig_var h_activate ghost_engine).
  - reflexivity.
  - reflexivity.
Defined.

(** C6, as stated, fails: with the blocks missing both functions return
    [EINVAL], with the blocks present and empty they return [EOK]. *)
Lemma C6_counterexample :
  entry bare_state = None /\ exit bare_state = None /\
  (EnterState (Some "bare"%string) bare_engine).1 = EINVAL /\
  (ExitState bare_engine).1 = EINVAL /\
  (EnterState (Some "bare"%string) empty_engine).1 = EOK /\
  (ExitState empty_engine).1 = EOK /\
  EINVAL <> EOK.
Proof. repeat split; try reflexivity. discriminate. Qed.

(** Entering ["bare"] from a state that has an exit block, and leaving
    ["bare"]. *)
Lemma C6_witness :
  EnterState (Some "bare"%string) bare_target_engine =
    (EINVAL,
     mkEngine
       (mkStateMachine 1000 (Some bare_state) true [state_a; bare_state])
       armed_world
       [Stdout ("Enter State: bare" +:+ nl);
        Syslog LOG_ERR "State 'bare' has no entry actions"])
  /\
  ExitState bare_engine =
    (EINVAL,
     mkEngine (machine bare_engine) armed_world
       [Syslog LOG_ERR "State 'bare' has no exit actions"])
  /\
  ((EnterState (Some "bare"%string) empty_engine).1 = EOK /\
   world (EnterState (Some "bare"%string) empty_engine).2
   = world empty_engine)
  /\
  ((ExitState empty_engine).1 = EOK /\
   world (ExitState empty_engine).2 = world empty_engine).
Proof.
  split; [| split; [| split]].
  - apply (proj1 (C6_missing_block_logged_and_EINVAL bare_target_engine)
             "bare"%string bare_state); reflexivity.
  - apply (proj1 (proj2 (C6_missing_block_logged_and_EINVAL bare_engine))
             bare_state); reflexivity.
  - apply (proj1 (proj2 (proj2
             (C6_missing_block_logged_and_EINVAL empty_engine)))
             "bare"%string empty_state []); reflexivity.
  - apply (proj2 (proj2 (proj2
             (C6_missing_block_logged_and_EINVAL empty_engine)))
             empty_state []); reflexivity.
Defined.

(** C7: in state [armed] of test/example2.sm, a change of
    [/sys/alarm/trigger] that leaves it at 0 makes [HandleSignal] return
    [ENOENT], the value documented as "the signal was not found in this
    state", although the guard of the first transition of the state
    references the event: the result of the first check, [ENOTSUP], is
    overwritten by the result of the second. *)
Lemma C7_ENOENT_although_event_referenced :
  let alarm := mkTransition (Some "alarm"%string)
                 (CreateVariable VA_EQUALS v_trigger (num 1)) in
  let disarmed := mkTransition (Some "disarmed"%string)
                    (CreateVariable VA_EQUALS v_activate (num 0)) in
  pCurrentState (machine armed_engine) = Some sm_armed /\
  trans sm_armed = [alarm; disarmed] /\
  references 34 sig_var h_trigger (trans_pVariable alarm) /\
  (CheckTransition 34 (Some alarm) sig_var h_trigger armed_engine).1
    = ENOTSUP /\
  (CheckTransition 34 (Some disarmed) sig_var h_trigger armed_engine).1
    = ENOENT /\
  (HandleSignal 34 sig_var h_trigger armed_engine).1 = ENOENT.
Proof.
  cbv zeta. repeat split; try reflexivity.
  apply CheckInConditions_EOK_iff. reflexivity.
Qed.

(** ** 13. Properties of the semantic actions *)

Section parser_properties.
Context {V : Type} `{VarServer V}.
Variable VAR_INVALID : Z.
Variable NOTIFY_MODIFIED : Z.

Lemma valid_sysvars_spec (n : VarNode) (p : VariablePtr) :
  n ∈ valid_sysvars VAR_INVALID p
  <-> Contains (fun m => m = n) p
      /\ operation n = VA_SYSVAR /\ hVar n <> VAR_INVALID.
Proof.
  induction p as [| m l IHl r IHr]; cbn [valid_sysvars].
  - split; [intros Hin; inversion Hin | intros [Hc _]; inversion Hc].
  - rewrite !elem_of_app, IHl, IHr.
    assert (Htest :
              bool_decide (operation m = VA_SYSVAR)
                && negb (hVar m =? VAR_INVALID) = true
              <-> operation m = VA_SYSVAR /\ hVar m <> VAR_INVALID).
    { rewrite andb_true_iff, bool_decide_eq_true, negb_true_iff,
        Z.eqb_neq. tauto. }
    split.
    + intros [[Hc Hv] | [[Hc Hv] | Hin]].
      * split; [apply Contains_left; exact Hc | exact Hv].
      * split; [apply Contains_right; exact Hc | exact Hv].
      * destruct (bool_decide (operation m = VA_SYSVAR)
                    && negb (hVar m =? VAR_INVALID)) eqn:Ht.
        -- apply list_elem_of_singleton in Hin. subst n.
           split; [apply Contains_root; reflexivity |].
           apply Htest. reflexivity.
        -- inversion Hin.
    + intros [Hc Hv].
      inversion Hc as [? ? ? Heq | ? ? ? Hl | ? ? ? Hr]; subst.
      * right. right. apply Htest in Hv. rewrite Hv.
        apply list_elem_of_singleton. reflexivity.
      * left. split; assumption.
      * right. left. split; assumption.
Qed.

(** [RequestNotifications] calls [VAR_Notify] once for each [SYSVAR]
    node with a valid handle, whatever the server answers. *)
Lemma RequestNotifications_notified (h : Z) (p : VariablePtr) :
  forall s : Parser,
    notified (RequestNotifications VAR_INVALID NOTIFY_MODIFIED h p s).2
      = notified s ++ requests_of VAR_INVALID h p.
Proof.
  unfold requests_of.
  induction p as [| n l IHl r IHr]; intros s;
    cbn [RequestNotifications valid_sysvars].
  - cbn. rewrite app_nil_r. reflexivity.
  - unfold bind.
    pose proof (IHl s) as Hl.
    destruct (RequestNotifications VAR_INVALID NOTIFY_MODIFIED h l s)
      as [rcl s1].
    pose proof (IHr s1) as Hr.
    destruct (RequestNotifications VAR_INVALID NOTIFY_MODIFIED h r s1)
      as [rcr s2].
    cbn [snd] in Hl, Hr.
    rewrite !map_app, !app_assoc, <- Hl, <- Hr.
    destruct (bool_decide (operation n = VA_SYSVAR)
                && negb (hVar n =? VAR_INVALID)).
    + unfold call_VAR_Notify.
      destruct (VAR_Notify h (hVar n) NOTIFY_MODIFIED (server s2))
        as [rc v].
      destruct (negb (rc =? EOK)); reflexivity.
    + cbn. rewrite app_nil_r. reflexivity.
Qed.

Lemma transition_action_notified
    (h : Z) (allocated : bool) (id : option string) (guard : VariablePtr)
    (s : Parser) :
  notified
    (transition_action VAR_INVALID NOTIFY_MODIFIED h allocated id guard s).2
    = notified s ++ (if allocated then requests_of VAR_INVALID h guard else []).
Proof.
  unfold transition_action. destruct allocated.
  - unfold bind.
    pose proof (RequestNotifications_notified h guard s) as Hn.
    cbn [trans_pVariable].
    destruct (RequestNotifications VAR_INVALID NOTIFY_MODIFIED h guard s)
      as [rc s1].
    exact Hn.
  - cbn. rewrite app_nil_r. reflexivity.
Qed.

Lemma transitionlist_action_notified
    (h : Z) (rules : list (bool * option string * VariablePtr)) :
  forall s : Parser,
    notified
      (transitionlist_action VAR_INVALID NOTIFY_MODIFIED h rules s).2
      = notified s ++ requests_of_rules VAR_INVALID h rules.
Proof.
  unfold requests_of_rules.
  induction rules as [| [[allocated id] guard] rest IH]; intros s.
  - cbn. rewrite app_nil_r. reflexivity.
  - cbn [transitionlist_action map concat]. unfold bind.
    pose proof (transition_action_notified h allocated id guard s) as Ht.
    destruct (transition_action VAR_INVALID NOTIFY_MODIFIED h allocated id
                guard s) as [t s1].
    pose proof (IH s1) as Hrest.
    destruct (transitionlist_action VAR_INVALID NOTIFY_MODIFIED h rest s1)
      as [ts s2].
    cbn [snd] in *. unfold ret. cbn [snd].
    rewrite Hrest, Ht, <- app_assoc. reflexivity.
Qed.

(** C8: when a transition rule is reduced, [VAR_Notify] is called
    exactly once for every [SYSVAR] node with a valid handle of its guard
    tree; the reductions of the entry and exit blocks call it for no
    node, whatever their statements contain, so that the requests of a
    whole state are those of the guards of its transitions. *)
Theorem C8_one_request_per_guard_sysvar
    (hVarServer : Z) (id : option string) (guard : VariablePtr)
    (text : state_text) (allocated : bool) (s : Parser) :
  notified
    (transition_action VAR_INVALID NOTIFY_MODIFIED hVarServer true id
       guard s).2
    = notified s
      ++ map (fun n => (hVarServer, hVar n))
             (valid_sysvars VAR_INVALID guard) /\
  (forall n, n ∈ valid_sysvars VAR_INVALID guard
             <-> Contains (fun m => m = n) guard
                 /\ operation n = VA_SYSVAR /\ hVar n <> VAR_INVALID) /\
  (forall a decls stmts,
      notified (entry_action a decls stmts s).2 = notified s) /\
  (forall a decls stmts,
      notified (exit_action a decls stmts s).2 = notified s) /\
  notified
    (state_definition_action VAR_INVALID NOTIFY_MODIFIED hVarServer
       allocated text s).2
    = notified s ++ requests_of_rules VAR_INVALID hVarServer (text_transitions text).
Proof.
  split; [exact (transition_action_notified hVarServer true id guard s) |].
  split; [intros n; apply valid_sysvars_spec |].
  split; [reflexivity |]. split; [reflexivity |].
  unfold state_definition_action.
  destruct (text_entry text) as [[ea ed] es].
  destruct (text_exit text) as [[xa xd] xs].
  unfold bind, entry_action, exit_action, ret.
  pose proof (transitionlist_action_notified hVarServer
                (text_transitions text) s) as Ht.
  destruct (transitionlist_action VAR_INVALID NOTIFY_MODIFIED hVarServer
              (text_transitions text) s) as [ts s1].
  exact Ht.
Qed.

Variable NewNumber : string -> VariablePtr.
Variable NewIdentifier : Z -> string -> bool -> VariablePtr.
Variable getlineno : Z.

(** C9: the statement [create tick <number> <identifier>] gives a node
    whose operation is [VA_CREATE_TIMER], the operation of a one-shot
    timer, while [create tick <number> <number>] gives
    [VA_CREATE_TICK]. *)
Theorem C9_create_tick_identifier_labelled_create_timer
    (hVarServer : Z) (number interval identifier : string) :
  (operation_of
     <$> parse_timer_statement NewNumber NewIdentifier getlineno hVarServer
           [CREATE; TICK; NUM number; ID identifier])
    = Some (Some VA_CREATE_TIMER) /\
  (operation_of
     <$> parse_timer_statement NewNumber NewIdentifier getlineno hVarServer
           [CREATE; TICK; NUM number; NUM interval])
    = Some (Some VA_CREATE_TICK) /\
  timer_statement_rule NewNumber NewIdentifier getlineno hVarServer
    [CREATE; TICK; NUM number; ID identifier]
    = Some (CREATE_TICK_number_identifier
              (number_action NewNumber number)
              (identifier_action NewIdentifier getlineno hVarServer
                 identifier)) /\
  timer_statement_rule NewNumber NewIdentifier getlineno hVarServer
    [CREATE; TICK; NUM number; NUM interval]
    = Some (CREATE_TICK_number_number
              (number_action NewNumber number)
              (number_action NewNumber interval)).
Proof. repeat split. Qed.

End parser_properties.

(** The guard [/sys/alarm/trigger == 1 || /sys/alarm/trigger == 2] names
    the variable in two nodes and is registered twice; the assignments of
    an entry block are not registered. *)
Example guard_requests :
  let guard :=
    CreateVariable VA_OR (CreateVariable VA_EQUALS v_trigger (num 1))
                         (CreateVariable VA_EQUALS v_trigger (num 2)) in
  notified
    (state_definition_action 0 1 1000 true
       (mkStateText "armed"
          (true, [], [stmt (CreateVariable VA_ASSIGN v_armed (num 1))])
          [(true, Some "alarm"%string, guard)]
          (true, [], []))
       (mkParser tt [] [])).2
  = [(1000, h_trigger); (1000, h_trigger)].
Proof. reflexivity. Qed.


(** ** 14. More about timer.c *)

Section timer_table.
Context {OS : Type} `{TimerOS OS}.
Variable SIGRTMIN : Z.

(** [DeleteTimer] reads the table and never writes it. *)
Lemma DeleteTimer_timers (id : Z) (s : TimerState) :
  timers (DeleteTimer id s).2 = timers s.
Proof.
  destruct (valid_timer_id_dec id) as [Hin | Hout].
  - rewrite DeleteTimer_in_range by assumption. reflexivity.
  - rewrite DeleteTimer_out_of_range by assumption. reflexivity.
Qed.

Lemma after_delete_timers (id : Z) (s : TimerState) :
  timers (after_delete id s) = timers s.
Proof.
  unfold after_delete.
  destruct (negb _); [apply DeleteTimer_timers | reflexivity].
Qed.

(** The table after the two calls of a creation: the slot holds what
    [timer_create] left in it. *)
Lemma timers_install (id : Z) (its : itimerspec) (s : TimerState) :
  timers (install SIGRTMIN id its s) =
    <[Z.to_nat id :=
        (timer_create CLOCK_REALTIME
           (mkSigevent SIGEV_SIGNAL (TIMER_NOTIFICATION SIGRTMIN) id)
           (default 0 (timers s !! Z.to_nat id)) (os s)).1.2]> (timers s).
Proof.
  unfold install, os_timer_create, os_timer_settime.
  destruct (timer_create _ _ _ (os s)) as [[rc t] o]. cbn [fst snd timers os].
  match goal with
  | |- context [timer_settime ?a ?b ?c ?d] =>
      destruct (timer_settime a b c d) as [rc2 o2]
  end.
  reflexivity.
Qed.

(** The last call of a creation is [timer_settime], on the content of the
    slot. *)
Lemma last_call_install (id : Z) (its : itimerspec) (s : TimerState) :
  last (calls (install SIGRTMIN id its s)) =
    Some (Call_timer_settime
            (default 0 (timers (install SIGRTMIN id its s) !! Z.to_nat id))
            0 its).
Proof.
  unfold install, os_timer_create, os_timer_settime.
  destruct (timer_create _ _ _ (os s)) as [[rc t] o]. cbn [fst snd timers os].
  match goal with
  | |- context [timer_settime ?a ?b ?c ?d] =>
      destruct (timer_settime a b c d) as [rc2 o2]
  end.
  cbn [snd calls timers]. apply last_snoc.
Qed.

(** X1: [DeleteTimer] leaves the slot as it was, so the table still names
    the deleted timer; a creation on that id afterwards calls
    [timer_delete] on it a second time before it installs the new timer. *)
Theorem DeleteTimer_keeps_slot_and_next_create_deletes_again
    (id ms t : Z) (s : TimerState) :
  1 <= id <= 254 ->
  timers s !! Z.to_nat id = Some t -> t <> 0 ->
  let te := mkSigevent SIGEV_SIGNAL (TIMER_NOTIFICATION SIGRTMIN) id in
  timers (DeleteTimer id s).2 = timers s /\
  (exists t',
      calls (CreateTimer SIGRTMIN id ms (DeleteTimer id s).2).2
        = calls s ++ [Call_timer_delete t; Call_timer_delete t;
                      Call_timer_create CLOCK_REALTIME te;
                      Call_timer_settime t' 0 (one_shot ms)]) /\
  (exists t',
      calls (CreateTick SIGRTMIN id ms (DeleteTimer id s).2).2
        = calls s ++ [Call_timer_delete t; Call_timer_delete t;
                      Call_timer_create CLOCK_REALTIME te;
                      Call_timer_settime t' 0 (periodic ms)]).
Proof.
  intros Hid Hslot Ht te. fold (valid_timer_id id) in Hid.
  split; [apply DeleteTimer_timers |].
  set (s1 := (DeleteTimer id s).2).
  assert (Hslot1 : timers s1 !! Z.to_nat id = Some t).
  { subst s1. rewrite DeleteTimer_timers. exact Hslot. }
  assert (Hc1 : calls s1 = calls s ++ [Call_timer_delete t]).
  { subst s1. rewrite DeleteTimer_in_range by assumption.
    cbn [snd calls]. rewrite Hslot. reflexivity. }
  assert (Hc2 : calls (DeleteTimer id s1).2
                = calls s ++ [Call_timer_delete t; Call_timer_delete t]).
  { rewrite DeleteTimer_in_range by assumption. cbn [snd calls].
    rewrite Hslot1, Hc1, <- app_assoc. reflexivity. }
  rewrite CreateTimer_in_range, CreateTick_in_range by assumption.
  rewrite (after_delete_live_slot id t s1 Hslot1 Ht). cbn [snd].
  split.
  - destruct (calls_install SIGRTMIN id (one_shot ms) (DeleteTimer id s1).2)
      as [t' Hc].
    exists t'. rewrite Hc, Hc2, <- app_assoc. reflexivity.
  - destruct (calls_install SIGRTMIN id (periodic ms) (DeleteTimer id s1).2)
      as [t' Hc].
    exists t'. rewrite Hc, Hc2, <- app_assoc. reflexivity.
Qed.

(** X2: none of the three functions changes the size of the table or a
    slot other than the one of its id. *)
Theorem timer_functions_touch_one_slot
    (id ms : Z) (j : nat) (s : TimerState) :
  j <> Z.to_nat id ->
  (length (timers (CreateTimer SIGRTMIN id ms s).2) = length (timers s) /\
   timers (CreateTimer SIGRTMIN id ms s).2 !! j = timers s !! j) /\
  (length (timers (CreateTick SIGRTMIN id ms s).2) = length (timers s) /\
   timers (CreateTick SIGRTMIN id ms s).2 !! j = timers s !! j) /\
  (length (timers (DeleteTimer id s).2) = length (timers s) /\
   timers (DeleteTimer id s).2 !! j = timers s !! j).
Proof.
  intros Hj. rewrite DeleteTimer_timers.
  destruct (valid_timer_id_dec id) as [Hin | Hout].
  - rewrite CreateTimer_in_range, CreateTick_in_range by assumption.
    cbn [snd]. rewrite !timers_install, !after_delete_timers.
    rewrite !length_insert.
    rewrite !list_lookup_insert_ne by (intros Heq; apply Hj; symmetry; exact Heq).
    repeat split.
  - rewrite CreateTimer_out_of_range, CreateTick_out_of_range by assumption.
    repeat split.
Qed.

(** X3: for an id in [1, 254] of a table that has the slot, a creation
    leaves in the slot the identifier that [timer_create] returned, and
    arms that very timer with [timer_settime] as its last call. *)
Theorem create_installs_timer_in_slot (id ms : Z) (s : TimerState) :
  1 <= id <= 254 ->
  (Z.to_nat id < length (timers s))%nat ->
  let te := mkSigevent SIGEV_SIGNAL (TIMER_NOTIFICATION SIGRTMIN) id in
  let created :=
    (timer_create CLOCK_REALTIME te (default 0 (timers s !! Z.to_nat id))
       (os (after_delete id s))).1.2 in
  (timers (CreateTimer SIGRTMIN id ms s).2 !! Z.to_nat id = Some created /\
   last (calls (CreateTimer SIGRTMIN id ms s).2)
     = Some (Call_timer_settime created 0 (one_shot ms))) /\
  (timers (CreateTick SIGRTMIN id ms s).2 !! Z.to_nat id = Some created /\
   last (calls (CreateTick SIGRTMIN id ms s).2)
     = Some (Call_timer_settime created 0 (periodic ms))).
Proof.
  intros Hid Hlen te created. fold (valid_timer_id id) in Hid.
  rewrite CreateTimer_in_range, CreateTick_in_range by assumption.
  cbn [snd].
  assert (Hslot : forall its,
             timers (install SIGRTMIN id its (after_delete id s))
               !! Z.to_nat id = Some created).
  { intros its. rewrite timers_install, after_delete_timers.
    apply list_lookup_insert_eq. exact Hlen. }
  repeat split; try apply Hslot.
  - rewrite last_call_install, Hslot. reflexivity.
  - rewrite last_call_install, Hslot. reflexivity.
Qed.

End timer_table.

(** *** The interval and the notification of a created timer *)

Section timer_arguments.
Context {OS : Type} `{TimerOS OS}.
Variable SIGRTMIN : Z.

Lemma nanoseconds_of_ms (ms : Z) :
  nanoseconds (mkTimespec (Z.quot ms 1000) (Z.rem ms 1000 * 1000000))
  = ms * 10 ^ 6.
Proof.
  unfold nanoseconds. cbn [tv_sec tv_nsec].
  pose proof (Z.quot_rem' ms 1000) as Hqr. lia.
Qed.

Lemma last_call_create (id ms : Z) (s : TimerState) :
  valid_timer_id id ->
  (exists t,
      last (calls (CreateTimer SIGRTMIN id ms s).2)
      = Some (Call_timer_settime t 0 (one_shot ms))) /\
  (exists t,
      last (calls (CreateTick SIGRTMIN id ms s).2)
      = Some (Call_timer_settime t 0 (periodic ms))).
Proof.
  intros Hid.
  rewrite CreateTimer_in_range, CreateTick_in_range by assumption.
  cbn [snd]. split; eexists; apply last_call_install.
Qed.

(** X4: for an id in [1, 254] and an interval that is not negative, the
    value that [CreateTimer] and [CreateTick] hand to [timer_settime]
    stands for exactly [ms] milliseconds, with a number of nanoseconds
    below one second; the repeat interval is zero for [CreateTimer] and the
    same time for [CreateTick]. *)
Theorem create_passes_interval_in_milliseconds
    (id ms : Z) (s : TimerState) :
  1 <= id <= 254 -> 0 <= ms ->
  (exists t its,
      last (calls (CreateTimer SIGRTMIN id ms s).2)
        = Some (Call_timer_settime t 0 its) /\
      it_interval its = mkTimespec 0 0 /\
      nanoseconds (it_value its) = ms * 10 ^ 6 /\
      0 <= tv_sec (it_value its) /\
      0 <= tv_nsec (it_value its) < 10 ^ 9) /\
  (exists t its,
      last (calls (CreateTick SIGRTMIN id ms s).2)
        = Some (Call_timer_settime t 0 its) /\
      it_interval its = it_value its /\
      nanoseconds (it_value its) = ms * 10 ^ 6 /\
      0 <= tv_sec (it_value its) /\
      0 <= tv_nsec (it_value its) < 10 ^ 9).
Proof.
  intros Hid Hms. fold (valid_timer_id id) in Hid.
  destruct (last_call_create id ms s Hid) as [[t1 H1] [t2 H2]].
  pose proof (Z.rem_bound_pos ms 1000 Hms ltac:(lia)) as Hrem.
  pose proof (Z.quot_pos ms 1000 Hms ltac:(lia)) as Hquot.
  split.
  - exists t1, (one_shot ms). split; [exact H1 |].
    unfold one_shot. cbn [it_interval it_value tv_sec tv_nsec].
    split; [reflexivity |]. split; [apply nanoseconds_of_ms |]. lia.
  - exists t2, (periodic ms). split; [exact H2 |].
    unfold periodic. cbn [it_interval it_value tv_sec tv_nsec].
    split; [reflexivity |]. split; [apply nanoseconds_of_ms |]. lia.
Qed.

(** X5: a negative interval is not rejected: for an id in [1, 254] both
    functions return [EOK] after handing [timer_settime] a value whose
    seconds and nanoseconds are not positive and stand for the negative
    time. *)
Theorem create_accepts_negative_interval
    (id ms : Z) (s : TimerState) :
  1 <= id <= 254 -> ms < 0 ->
  ((CreateTimer SIGRTMIN id ms s).1 = EOK /\
   exists t its,
     last (calls (CreateTimer SIGRTMIN id ms s).2)
       = Some (Call_timer_settime t 0 its) /\
     nanoseconds (it_value its) = ms * 10 ^ 6 /\
     tv_sec (it_value its) <= 0 /\
     - 10 ^ 9 < tv_nsec (it_value its) <= 0) /\
  ((CreateTick SIGRTMIN id ms s).1 = EOK /\
   exists t its,
     last (calls (CreateTick SIGRTMIN id ms s).2)
       = Some (Call_timer_settime t 0 its) /\
     nanoseconds (it_value its) = ms * 10 ^ 6 /\
     tv_sec (it_value its) <= 0 /\
     - 10 ^ 9 < tv_nsec (it_value its) <= 0).
Proof.
  intros Hid Hms. fold (valid_timer_id id) in Hid.
  destruct (last_call_create id ms s Hid) as [[t1 H1] [t2 H2]].
  pose proof (Z.rem_bound_pos_neg ms 1000 ltac:(lia) ltac:(lia)) as Hrem.
  pose proof (Z.quot_le_mono ms 0 1000 ltac:(lia) ltac:(lia)) as Hquot.
  change (0 ÷ 1000) with 0 in Hquot.
  split.
  - split; [rewrite CreateTimer_in_range by assumption; reflexivity |].
    exists t1, (one_shot ms). split; [exact H1 |].
    unfold one_shot. cbn [it_interval it_value tv_sec tv_nsec].
    split; [apply nanoseconds_of_ms |]. lia.
  - split; [rewrite CreateTick_in_range by assumption; reflexivity |].
    exists t2, (periodic ms). split; [exact H2 |].
    unfold periodic. cbn [it_interval it_value tv_sec tv_nsec].
    split; [apply nanoseconds_of_ms |]. lia.
Qed.

(** The guard that the grammar builds for [timer N], with the number a
    leaf [n]: it is found for the timer notification whose payload is the
    value of [n], and for nothing else. *)
Lemma CheckInConditions_timer_expression (n : VarNode) (signum id : Z) :
  CheckInConditions SIGRTMIN (timer_expression_action (leaf n)) signum id
  = if (signum =? TIMER_NOTIFICATION SIGRTMIN) && (val_ui n =? uint_of_int id)
    then EOK else ENOENT.
Proof.
  unfold timer_expression_action, leaf, CreateVariable.
  cbn [CheckInConditions operation val_ui hVar].
  rewrite (bool_decide_eq_false_2 (VA_EQUALS = VA_TIMER)) by discriminate.
  rewrite (bool_decide_eq_false_2 (VA_EQUALS = VA_SYSVAR)) by discriminate.
  rewrite (bool_decide_eq_true_2 (VA_TIMER = VA_TIMER)) by reflexivity.
  rewrite (bool_decide_eq_false_2 (VA_TIMER = VA_SYSVAR)) by discriminate.
  rewrite (bool_decide_eq_false_2 (VA_ACTIVE_TIMER = VA_TIMER)) by discriminate.
  rewrite (bool_decide_eq_false_2 (VA_ACTIVE_TIMER = VA_SYSVAR))
    by discriminate.
  cbn [andb].
  destruct ((signum =? TIMER_NOTIFICATION SIGRTMIN)
            && (val_ui n =? uint_of_int id)); reflexivity.
Qed.

(** X6: the guard [timer N] is found ([EOK]) exactly for the timer
    notification with payload [N]; for any other event, every variable
    notification included, it gives [ENOENT]. *)
Theorem timer_guard_found_only_for_its_timer
    (n : VarNode) (signum id : Z) :
  let guard := timer_expression_action (leaf n) in
  (CheckInConditions SIGRTMIN guard signum id = EOK
   <-> signum = TIMER_NOTIFICATION SIGRTMIN /\ val_ui n = uint_of_int id) /\
  (CheckInConditions SIGRTMIN guard signum id = EOK \/
   CheckInConditions SIGRTMIN guard signum id = ENOENT) /\
  CheckInConditions SIGRTMIN guard (VAR_NOTIFICATION SIGRTMIN) id = ENOENT.
Proof.
  cbv zeta. rewrite !CheckInConditions_timer_expression.
  assert (Hne : (VAR_NOTIFICATION SIGRTMIN =? TIMER_NOTIFICATION SIGRTMIN)
                = false).
  { unfold VAR_NOTIFICATION, TIMER_NOTIFICATION. lia. }
  rewrite Hne. cbn [andb].
  destruct (Z.eqb_spec signum (TIMER_NOTIFICATION SIGRTMIN)) as [Hs | Hs];
    destruct (Z.eqb_spec (val_ui n) (uint_of_int id)) as [Hv | Hv];
    cbn [andb]; repeat split; auto; try discriminate;
    intros [Hs' Hv']; contradiction.
Qed.

(** X7: the notification that a created timer is asked to deliver is the
    one the guard [timer id] waits for: [timer_create] is called with the
    signal [TIMER_NOTIFICATION] and the payload [id], and for this event
    the guard [timer N] is found exactly when [N] is [id]. *)
Theorem created_timer_notifies_its_guard
    (id ms : Z) (n : VarNode) (s : TimerState) :
  1 <= id <= 254 ->
  exists te t1 t2,
    calls (CreateTimer SIGRTMIN id ms s).2
      = calls (after_delete id s)
        ++ [Call_timer_create CLOCK_REALTIME te;
            Call_timer_settime t1 0 (one_shot ms)] /\
    calls (CreateTick SIGRTMIN id ms s).2
      = calls (after_delete id s)
        ++ [Call_timer_create CLOCK_REALTIME te;
            Call_timer_settime t2 0 (periodic ms)] /\
    sigev_notify te = SIGEV_SIGNAL /\
    (CheckInConditions SIGRTMIN (timer_expression_action (leaf n))
       (sigev_signo te) (sigev_value_sival_int te) = EOK
     <-> val_ui n = id).
Proof.
  intros Hid.
  assert (Hu : uint_of_int id = id).
  { apply uint_of_int_small. lia. }
  fold (valid_timer_id id) in Hid.
  rewrite CreateTimer_in_range, CreateTick_in_range by assumption.
  cbn [snd].
  destruct (calls_install SIGRTMIN id (one_shot ms) (after_delete id s))
    as [t1 H1].
  destruct (calls_install SIGRTMIN id (periodic ms) (after_delete id s))
    as [t2 H2].
  exists (mkSigevent SIGEV_SIGNAL (TIMER_NOTIFICATION SIGRTMIN) id), t1, t2.
  split; [exact H1 |]. split; [exact H2 |]. split; [reflexivity |].
  cbn [sigev_signo sigev_value_sival_int].
  rewrite CheckInConditions_timer_expression, Z.eqb_refl, Hu. cbn [andb].
  destruct (Z.eqb_spec (val_ui n) id) as [Hv | Hv]; split; auto;
    try discriminate. intros Hv'. contradiction.
Qed.

End timer_arguments.

(** ** 15. More about engine.c *)

Section engine_more.
Context {W : Type} `{VarAction W}.
Variable SIGRTMIN : Z.

Lemma FindState_from_spec (l : list State) (name : string) :
  match FindState_from l name with
  | Some s =>
      exists pre post,
        l = pre ++ s :: post /\ state_id s = name /\
        Forall (fun x => state_id x <> name) pre
  | None => Forall (fun x => state_id x <> name) l
  end.
Proof.
  induction l as [| a l IH]; cbn [FindState_from].
  - constructor.
  - destruct (String.eqb_spec (state_id a) name) as [Heq | Hne].
    + exists [], l. repeat split; [exact Heq | constructor].
    + destruct (FindState_from l name) as [s |].
      * destruct IH as (pre & post & Hl & Hid & Hpre).
        exists (a :: pre), post. rewrite Hl. repeat split; [exact Hid |].
        constructor; assumption.
      * constructor; assumption.
Qed.

Lemma FindState_elem_of (m : StateMachine) (name : option string) (s : State) :
  FindState m name = Some s -> s ∈ pStateList m.
Proof.
  unfold FindState. destruct name as [n |]; [| discriminate].
  intros Hf. pose proof (FindState_from_spec (pStateList m) n) as Hs.
  rewrite Hf in Hs. destruct Hs as (pre & post & Hl & _ & _).
  rewrite Hl. apply elem_of_app. right. apply list_elem_of_here.
Qed.

(** X8: [FindState] returns the first state of the list that has the
    name, so a later state of the same name is never found; it returns
    [NULL] exactly when no state has the name, and for a [NULL] name. *)
Theorem FindState_returns_first_state_of_that_name
    (m : StateMachine) (name : string) :
  match FindState m (Some name) with
  | Some s =>
      exists pre post,
        pStateList m = pre ++ s :: post /\ state_id s = name /\
        Forall (fun x => state_id x <> name) pre
  | None => Forall (fun x => state_id x <> name) (pStateList m)
  end /\
  FindState m None = None.
Proof.
  split; [| reflexivity].
  unfold FindState. apply FindState_from_spec.
Qed.

(** A transition whose guard does not reference the event is skipped
    without a call of the action library. *)
Lemma CheckTransition_unreferenced
    (t : Transition) (signum id : Z) (e : Engine) :
  ~ references SIGRTMIN signum id (trans_pVariable t) ->
  exists r,
    CheckTransition SIGRTMIN (Some t) signum id e = (r, e) /\
    (r = ENOENT \/ r = EINVAL) /\
    (statename t <> None -> trans_pVariable t <> NULLVAR -> r = ENOENT).
Proof.
  intros Hno. unfold CheckTransition.
  destruct (statename t) as [target |].
  2:{ exists EINVAL. repeat split; auto. intros Hn. contradiction. }
  destruct (trans_pVariable t) as [| n l r] eqn:Hp.
  { exists EINVAL. repeat split; auto. intros _ Hn. contradiction. }
  destruct (CheckInConditions_Var SIGRTMIN n l r signum id) as [Hr | Hr].
  - apply CheckInConditions_EOK_iff in Hr. contradiction.
  - rewrite Hr. exists ENOENT. repeat split; auto.
Qed.

Lemma HandleSignal_loop_unreferenced (ts : list Transition) :
  forall (r0 signum id : Z) (e : Engine),
    Forall (fun t => ~ references SIGRTMIN signum id (trans_pVariable t)) ts ->
    exists r,
      HandleSignal_loop SIGRTMIN ts r0 signum id e = (r, e) /\
      (r = r0 \/ r = ENOENT \/ r = EINVAL) /\
      (r0 = ENOENT ->
       Forall (fun t => statename t <> None /\ trans_pVariable t <> NULLVAR) ts ->
       r = ENOENT).
Proof.
  induction ts as [| t ts IH]; intros r0 signum id e Hall.
  - exists r0. repeat split; auto.
  - inversion Hall as [| ? ? Ht Hts]; subst.
    destruct (CheckTransition_unreferenced t signum id e Ht)
      as (r1 & Hck & Hr1 & Hwf1).
    destruct (IH r1 signum id e Hts) as (r & Hloop & Hr & Hwf).
    exists r. cbn [HandleSignal_loop]. unfold bind. rewrite Hck.
    destruct (Z.eqb_spec r1 EOK) as [Heq | Hne].
    { destruct Hr1 as [Hr1 | Hr1]; rewrite Hr1 in Heq; discriminate. }
    split; [exact Hloop |]. split.
    + destruct Hr as [Hr | Hr]; [| auto]. rewrite Hr. auto.
    + intros _ Hwfall. inversion Hwfall as [| ? ? [Hn Hg] Hrest]; subst.
      apply Hwf; [apply Hwf1; assumption | exact Hrest].
Qed.

(** X9: when no guard of the current state references the event, the
    dispatch evaluates no guard and runs no block: the engine is left as it
    was, but for the active timer that is set and cleared, and the result
    is [ENOENT] when every transition has a target name and a guard
    ([EINVAL] can only come from a transition without one). *)
Theorem unreferenced_event_leaves_engine_alone
    (signum id : Z) (e : Engine) (pState : State) :
  pCurrentState (machine e) = Some pState ->
  Forall (fun t => ~ references SIGRTMIN signum id (trans_pVariable t))
         (trans pState) ->
  let e0 := if signum =? TIMER_NOTIFICATION SIGRTMIN
            then (call_SetTimer id e).2 else e in
  (HandleSignal SIGRTMIN signum id e).2 = (call_SetTimer 0 e0).2 /\
  ((HandleSignal SIGRTMIN signum id e).1 = ENOENT \/
   (HandleSignal SIGRTMIN signum id e).1 = EINVAL) /\
  (Forall (fun t => statename t <> None /\ trans_pVariable t <> NULLVAR)
          (trans pState) ->
   (HandleSignal SIGRTMIN signum id e).1 = ENOENT).
Proof.
  intros Hcur Hall e0.
  assert (He0 : (if signum =? TIMER_NOTIFICATION SIGRTMIN
                 then call_SetTimer id else ret ()) e = ((), e0)).
  { subst e0. destruct (signum =? TIMER_NOTIFICATION SIGRTMIN); reflexivity. }
  assert (Hm0 : machine e0 = machine e).
  { subst e0. destruct (signum =? TIMER_NOTIFICATION SIGRTMIN); reflexivity. }
  destruct (HandleSignal_loop_unreferenced (trans pState) ENOENT signum id
              e0 Hall) as (r & Hloop & Hr & Hwf).
  unfold HandleSignal, bind. rewrite He0. unfold get_machine.
  rewrite Hm0, Hcur, Hloop. cbn [fst snd].
  split; [reflexivity |]. split.
  - destruct Hr as [Hr | [Hr | Hr]]; auto.
  - intros Hwfall. apply Hwf; [reflexivity | exact Hwfall].
Qed.

End engine_more.

Section engine_transitions.
Context {W : Type} `{VarAction W}.
Variable SIGRTMIN : Z.

(** [ExitState] and [EnterState] on blocks that are present. *)
Lemma ExitState_block (e : Engine) (s : State) (x : StateExit) :
  pCurrentState (machine e) = Some s -> exit s = Some x ->
  ExitState e =
    ((run_statements (hVarServer (machine e)) (exit_pStatements x) (world e)).1,
     mkEngine (machine e)
       (run_statements (hVarServer (machine e)) (exit_pStatements x)
          (world e)).2
       (output e ++ verbose_line (machine e) "Exit State: " s)).
Proof.
  intros Hcur Hexit. destruct e as [m w o]. cbn [machine world output] in *.
  unfold ExitState, bind, get_machine, verbose_line.
  cbn [machine]. rewrite Hcur.
  destruct (verbose m); cbn [emit ret fst snd]; rewrite Hexit;
    unfold run_statements, call_ProcessCompoundStatement;
    destruct (exit_pStatements x) as [| st sts];
    rewrite ?app_nil_r; try reflexivity;
    cbn [machine world output];
    match goal with
    | |- context [ProcessCompoundStatement ?a ?b ?c] =>
        destruct (ProcessCompoundStatement a b c)
    end; reflexivity.
Qed.

Lemma EnterState_block
    (e : Engine) (target : string) (s' : State) (en : StateEntry) :
  FindState (machine e) (Some target) = Some s' -> entry s' = Some en ->
  EnterState (Some target) e =
    ((run_statements (hVarServer (machine e)) (entry_pStatements en)
        (world e)).1,
     mkEngine
       (mkStateMachine (hVarServer (machine e)) (Some s')
                       (verbose (machine e)) (pStateList (machine e)))
       (run_statements (hVarServer (machine e)) (entry_pStatements en)
          (world e)).2
       (output e ++ verbose_line (machine e) "Enter State: " s')).
Proof.
  intros Hfind Hentry. destruct e as [m w o]. cbn [machine world output] in *.
  unfold EnterState, bind, get_machine, verbose_line.
  cbn [machine]. rewrite Hfind.
  destruct (verbose m) eqn:Hv; cbn [emit ret set_current fst snd];
    rewrite Hentry;
    unfold run_statements, call_ProcessCompoundStatement;
    destruct (entry_pStatements en) as [| st sts];
    cbn [machine world output hVarServer verbose pStateList fst snd];
    rewrite ?Hv, ?app_nil_r; try reflexivity;
    match goal with
    | |- context [ProcessCompoundStatement ?a ?b ?c] =>
        destruct (ProcessCompoundStatement a b c)
    end; reflexivity.
Qed.

(** X10: a transition whose guard fires, from a state with an exit block to
    a state that exists and has an entry block: the statements of the exit
    block of the current state run first, on the world the guard left; when
    they succeed the target becomes the current state and the statements of
    its entry block run on the world the exit left; the result is the
    result of the entry.  The target may be the current state itself: its
    exit and its entry both run. *)
Theorem transition_runs_exit_then_entry
    (t : Transition) (target : string) (signum id ui : Z)
    (s s' : State) (x : StateExit) (en : StateEntry)
    (w1 w2 : W) (e : Engine) :
  statename t = Some target ->
  CheckInConditions SIGRTMIN (trans_pVariable t) signum id = EOK ->
  ProcessExpr (hVarServer (machine e)) (trans_pVariable t) (world e)
    = (EOK, ui, w1) ->
  ui <> 0 ->
  pCurrentState (machine e) = Some s -> exit s = Some x ->
  FindState (machine e) (Some target) = Some s' -> entry s' = Some en ->
  run_statements (hVarServer (machine e)) (exit_pStatements x) w1
    = (EOK, w2) ->
  CheckTransition SIGRTMIN (Some t) signum id e =
    ((run_statements (hVarServer (machine e)) (entry_pStatements en) w2).1,
     mkEngine
       (mkStateMachine (hVarServer (machine e)) (Some s')
                       (verbose (machine e)) (pStateList (machine e)))
       (run_statements (hVarServer (machine e)) (entry_pStatements en) w2).2
       (output e ++ verbose_line (machine e) "Exit State: " s
                 ++ verbose_line (machine e) "Enter State: " s')).
Proof.
  intros Hname Hc Heval Hui Hcur Hexit Hfind Hentry Hrun.
  rewrite (CheckTransition_eq SIGRTMIN t target signum id e Hname), Hc.
  unfold call_ProcessExpr. rewrite Heval.
  change (EOK =? EOK) with true. cbv iota.
  destruct (Z.eqb_spec ui 0) as [Hz | _]; [contradiction |]. cbn [negb].
  set (e1 := mkEngine (machine e) w1 (output e)).
  rewrite (ExitState_block e1 s x Hcur Hexit).
  cbn [machine world output e1] in *. subst e1. cbn [machine world output].
  rewrite Hrun. cbn [fst snd]. change (EOK =? EOK) with true. cbv iota.
  match goal with
  | |- context [EnterState (Some target) ?e2] =>
      rewrite (EnterState_block e2 target s' en Hfind Hentry)
  end.
  cbn [machine world output]. rewrite <- app_assoc. reflexivity.
Qed.

(** A missing exit block makes [ExitState] fail. *)
Lemma ExitState_no_block (e : Engine) (s : State) :
  pCurrentState (machine e) = Some s -> exit s = None ->
  (ExitState e).1 = EINVAL.
Proof.
  intros Hcur Hexit. unfold ExitState, bind, get_machine. rewrite Hcur.
  destruct (verbose (machine e)); cbn [emit ret fst snd]; rewrite Hexit;
    reflexivity.
Qed.

Lemma CheckTransition_no_exit_block
    (t : Transition) (signum id : Z) (e : Engine) (s : State) :
  pCurrentState (machine e) = Some s -> exit s = None ->
  machine (CheckTransition SIGRTMIN (Some t) signum id e).2 = machine e /\
  (CheckTransition SIGRTMIN (Some t) signum id e).1 <> EOK.
Proof.
  intros Hcur Hexit.
  destruct (statename t) as [target |] eqn:Hname.
  2:{ unfold CheckTransition. rewrite Hname. split; [reflexivity |].
      discriminate. }
  rewrite (CheckTransition_eq SIGRTMIN t target signum id e Hname).
  destruct (Z.eqb_spec
              (CheckInConditions SIGRTMIN (trans_pVariable t) signum id) EOK)
    as [Hc | Hc]; [| split; [reflexivity | exact Hc]].
  pose proof (call_ProcessExpr_frame (trans_pVariable t) e) as [Hm1 _].
  destruct (call_ProcessExpr (trans_pVariable t) e) as [[r ui] e1].
  cbn [fst snd] in *.
  destruct (Z.eqb_spec r EOK) as [Hr | Hr]; [| split; assumption].
  destruct (Z.eqb_spec ui 0) as [Hu | Hu]; cbn [negb];
    [split; [exact Hm1 | discriminate] |].
  assert (Hcur1 : pCurrentState (machine e1) = Some s)
    by (rewrite Hm1; exact Hcur).
  pose proof (ExitState_no_block e1 s Hcur1 Hexit) as Hx.
  pose proof (ExitState_machine e1) as Hm2.
  destruct (ExitState e1) as [rx e2]. cbn [fst snd] in *. subst rx.
  change (EINVAL =? EOK) with false. cbv iota. cbn [fst snd].
  split; [rewrite Hm2; exact Hm1 | discriminate].
Qed.

Lemma HandleSignal_loop_no_exit_block (ts : list Transition) :
  forall (r0 signum id : Z) (e : Engine) (s : State),
    pCurrentState (machine e) = Some s -> exit s = None -> r0 <> EOK ->
    machine (HandleSignal_loop SIGRTMIN ts r0 signum id e).2 = machine e /\
    (HandleSignal_loop SIGRTMIN ts r0 signum id e).1 <> EOK.
Proof.
  induction ts as [| t ts IH]; intros r0 signum id e s Hcur Hexit Hr0.
  - split; [reflexivity | exact Hr0].
  - cbn [HandleSignal_loop]. unfold bind.
    destruct (CheckTransition_no_exit_block t signum id e s Hcur Hexit)
      as [Hm Hr].
    destruct (CheckTransition SIGRTMIN (Some t) signum id e) as [r1 e1].
    cbn [fst snd] in *.
    destruct (Z.eqb_spec r1 EOK) as [Heq | Hne]; [contradiction |].
    assert (Hcur1 : pCurrentState (machine e1) = Some s)
      by (rewrite Hm; exact Hcur).
    destruct (IH r1 signum id e1 s Hcur1 Hexit Hne) as [Hm' Hr'].
    split; [exact (eq_trans Hm' Hm) | exact Hr'].
Qed.

(** X11: a state whose exit block is missing is never left: whatever the
    event and the guards, the dispatch neither changes the machine nor
    returns [EOK]. *)
Theorem state_without_exit_block_is_never_left
    (signum id : Z) (e : Engine) (s : State) :
  pCurrentState (machine e) = Some s -> exit s = None ->
  machine (HandleSignal SIGRTMIN signum id e).2 = machine e /\
  (HandleSignal SIGRTMIN signum id e).1 <> EOK.
Proof.
  intros Hcur Hexit. unfold HandleSignal, bind.
  set (e0 := ((if signum =? TIMER_NOTIFICATION SIGRTMIN
               then call_SetTimer id else ret ()) e).2).
  assert (He0 : (if signum =? TIMER_NOTIFICATION SIGRTMIN
                 then call_SetTimer id else ret ()) e = ((), e0)).
  { subst e0. destruct (signum =? TIMER_NOTIFICATION SIGRTMIN); reflexivity. }
  assert (Hm0 : machine e0 = machine e).
  { subst e0. destruct (signum =? TIMER_NOTIFICATION SIGRTMIN); reflexivity. }
  rewrite He0. unfold get_machine. rewrite Hm0, Hcur.
  assert (Hcur0 : pCurrentState (machine e0) = Some s)
    by (rewrite Hm0; exact Hcur).
  destruct (HandleSignal_loop_no_exit_block (trans s) ENOENT signum id e0 s
              Hcur0 Hexit ltac:(discriminate)) as [Hm Hr].
  destruct (HandleSignal_loop SIGRTMIN (trans s) ENOENT signum id e0)
    as [r e1].
  cbn [fst snd] in *. split; [exact (eq_trans Hm Hm0) | exact Hr].
Qed.

End engine_transitions.

Section engine_invariant.
Context {W : Type} `{VarAction W}.
Variable SIGRTMIN : Z.

(** [EnterState] writes [pCurrentState] as soon as the target is found,
    and nothing else of the machine. *)
Lemma EnterState_machine (targetState : option string) (e : Engine) :
  machine (EnterState targetState e).2 =
    match FindState (machine e) targetState with
    | Some s' =>
        mkStateMachine (hVarServer (machine e)) (Some s')
                       (verbose (machine e)) (pStateList (machine e))
    | None => machine e
    end.
Proof.
  destruct targetState as [target |]; [| reflexivity].
  unfold EnterState, bind, get_machine.
  destruct (FindState (machine e) (Some target)) as [s' |]; [| reflexivity].
  set (line := Stdout ("Enter State: " +:+ state_id s' +:+ nl)).
  set (e1 := ((if verbose (machine e) then emit line else ret ()) e).2).
  assert (He1 : (if verbose (machine e) then emit line else ret ()) e
                = ((), e1)).
  { subst e1. destruct (verbose (machine e)); reflexivity. }
  assert (Hm1 : machine e1 = machine e).
  { subst e1. destruct (verbose (machine e)); reflexivity. }
  rewrite He1. unfold set_current. rewrite Hm1.
  destruct (entry s') as [en |]; [| reflexivity].
  destruct (entry_pStatements en) as [| st sts]; [reflexivity |].
  match goal with
  | |- machine (call_ProcessCompoundStatement ?l ?e2).2 = _ =>
      exact (proj1 (call_ProcessCompoundStatement_frame l e2))
  end.
Qed.

Lemma EnterState_Inv (m0 : StateMachine) (targetState : option string)
    (e : Engine) :
  run_invariant m0 (machine e) -> run_invariant m0 (machine (EnterState targetState e).2).
Proof.
  intros [[Hh [Hv Hl]] Hcur]. rewrite EnterState_machine.
  destruct (FindState (machine e) targetState) as [s' |] eqn:Hf.
  - split; [repeat split; assumption |].
    exists s'. split; [reflexivity |]. cbn [pStateList].
    apply (FindState_elem_of (machine e) targetState s' Hf).
  - split; [repeat split; assumption | exact Hcur].
Qed.

Lemma CheckTransition_Inv (m0 : StateMachine) (t : Transition)
    (signum id : Z) (e : Engine) :
  run_invariant m0 (machine e) ->
  run_invariant m0 (machine (CheckTransition SIGRTMIN (Some t) signum id e).2).
Proof.
  intros HI.
  destruct (statename t) as [target |] eqn:Hname.
  2:{ unfold CheckTransition. rewrite Hname. exact HI. }
  rewrite (CheckTransition_eq SIGRTMIN t target signum id e Hname).
  destruct (CheckInConditions SIGRTMIN (trans_pVariable t) signum id =? EOK);
    [| exact HI].
  pose proof (call_ProcessExpr_frame (trans_pVariable t) e) as [Hm1 _].
  destruct (call_ProcessExpr (trans_pVariable t) e) as [[r ui] e1].
  cbn [fst snd] in *. rewrite <- Hm1 in HI.
  destruct (r =? EOK); [| exact HI].
  destruct (negb (ui =? 0)); [| exact HI].
  pose proof (ExitState_machine e1) as Hm2.
  destruct (ExitState e1) as [rx e2]. cbn [fst snd] in *.
  rewrite <- Hm2 in HI.
  destruct (rx =? EOK); [| exact HI].
  apply EnterState_Inv. exact HI.
Qed.

Lemma HandleSignal_loop_Inv (m0 : StateMachine) (ts : list Transition) :
  forall (r0 signum id : Z) (e : Engine),
    run_invariant m0 (machine e) ->
    run_invariant m0 (machine (HandleSignal_loop SIGRTMIN ts r0 signum id e).2).
Proof.
  induction ts as [| t ts IH]; intros r0 signum id e HI; [exact HI |].
  cbn [HandleSignal_loop]. unfold bind.
  pose proof (CheckTransition_Inv m0 t signum id e HI) as HI1.
  destruct (CheckTransition SIGRTMIN (Some t) signum id e) as [r1 e1].
  cbn [fst snd] in HI1.
  destruct (r1 =? EOK); [exact HI1 | apply IH; exact HI1].
Qed.

Lemma HandleSignal_Inv (m0 : StateMachine) (signum id : Z) (e : Engine) :
  run_invariant m0 (machine e) -> run_invariant m0 (machine (HandleSignal SIGRTMIN signum id e).2).
Proof.
  intros HI. unfold HandleSignal, bind.
  set (e0 := ((if signum =? TIMER_NOTIFICATION SIGRTMIN
               then call_SetTimer id else ret ()) e).2).
  assert (He0 : (if signum =? TIMER_NOTIFICATION SIGRTMIN
                 then call_SetTimer id else ret ()) e = ((), e0)).
  { subst e0. destruct (signum =? TIMER_NOTIFICATION SIGRTMIN); reflexivity. }
  assert (Hm0 : machine e0 = machine e).
  { subst e0. destruct (signum =? TIMER_NOTIFICATION SIGRTMIN); reflexivity. }
  rewrite He0. unfold get_machine. rewrite <- Hm0 in HI.
  destruct (pCurrentState (machine e0)) as [pState |].
  - pose proof (HandleSignal_loop_Inv m0 (trans pState) ENOENT signum id e0 HI)
      as HI1.
    destruct (HandleSignal_loop SIGRTMIN (trans pState) ENOENT signum id e0)
      as [r e1].
    exact HI1.
  - exact HI.
Qed.

(** X12: a dispatch never changes the definition of the machine (the
    handle of the server, the verbose flag and the list of states), and
    when the current state is one of the states of the list before the
    dispatch, it is one of them after it: [pCurrentState] does not become
    [NULL] and never points outside the list. *)
Theorem HandleSignal_keeps_definition_and_current_state
    (signum id : Z) (e : Engine) :
  current_in_list (machine e) ->
  same_definition (machine e) (machine (HandleSignal SIGRTMIN signum id e).2)
  /\ current_in_list (machine (HandleSignal SIGRTMIN signum id e).2).
Proof.
  intros Hcur.
  apply (HandleSignal_Inv (machine e) signum id e).
  split; [repeat split | exact Hcur].
Qed.

Lemma RunStateMachine_loop_Inv (m0 : StateMachine) (signals : list (Z * Z)) :
  forall (r0 : Z) (e : Engine),
    run_invariant m0 (machine e) ->
    run_invariant m0 (machine (RunStateMachine_loop SIGRTMIN signals r0 e).2).
Proof.
  induction signals as [| [signum id] rest IH]; intros r0 e HI; [exact HI |].
  cbn [RunStateMachine_loop]. unfold bind, get_machine.
  set (e1 := ((if verbose (machine e) then emit (Stdout_received signum id)
               else ret ()) e).2).
  assert (He1 : (if verbose (machine e) then emit (Stdout_received signum id)
                 else ret ()) e = ((), e1)).
  { subst e1. destruct (verbose (machine e)); reflexivity. }
  assert (Hm1 : machine e1 = machine e).
  { subst e1. destruct (verbose (machine e)); reflexivity. }
  rewrite He1. rewrite <- Hm1 in HI.
  pose proof (HandleSignal_Inv m0 signum id e1 HI) as HI2.
  destruct (HandleSignal SIGRTMIN signum id e1) as [r e2].
  cbn [fst snd] in HI2.
  set (e3 := ((if verbose (machine e) then emit (Stdout_handled signum id r)
               else ret ()) e2).2).
  assert (He3 : (if verbose (machine e) then emit (Stdout_handled signum id r)
                 else ret ()) e2 = ((), e3)).
  { subst e3. destruct (verbose (machine e)); reflexivity. }
  assert (Hm3 : machine e3 = machine e2).
  { subst e3. destruct (verbose (machine e)); reflexivity. }
  rewrite He3. apply IH. rewrite Hm3. exact HI2.
Qed.

(** X13: without a state named ["init"] the machine does not run:
    [RunStateMachine] returns [ENOENT], handles none of the signals, and
    only logs that the state, and then that the init state, cannot be
    found. *)
Theorem RunStateMachine_without_init_handles_nothing
    (signals : list (Z * Z)) (e : Engine) :
  FindState (machine e) (Some "init"%string) = None ->
  RunStateMachine SIGRTMIN signals e =
    (ENOENT,
     mkEngine (machine e) (world e)
       (output e ++ [Syslog LOG_ERR "Cannot find state: init";
                     Syslog LOG_ERR "Cannot find init state"])).
Proof.
  intros Hf. unfold RunStateMachine, bind.
  rewrite (EnterState_not_found "init" e Hf).
  change (ENOENT =? EOK) with false. cbv iota.
  unfold emit, ret. cbn [machine world output].
  rewrite <- app_assoc. reflexivity.
Qed.

(** X14: with a state named ["init"], whatever the signals that arrive
    and whatever the action library answers, the machine that
    [RunStateMachine] leaves has the definition it started with and a
    current state that is one of its states. *)
Theorem RunStateMachine_current_state_is_a_state_of_the_machine
    (signals : list (Z * Z)) (e : Engine) (init : State) :
  FindState (machine e) (Some "init"%string) = Some init ->
  same_definition (machine e)
    (machine (RunStateMachine SIGRTMIN signals e).2) /\
  current_in_list (machine (RunStateMachine SIGRTMIN signals e).2).
Proof.
  intros Hf. unfold RunStateMachine, bind.
  assert (HI : run_invariant (machine e) (machine (EnterState (Some "init"%string) e).2)).
  { rewrite EnterState_machine, Hf. split; [repeat split |].
    exists init. split; [reflexivity |]. cbn [pStateList].
    apply (FindState_elem_of (machine e) (Some "init"%string) init Hf). }
  destruct (EnterState (Some "init"%string) e) as [r e1]. cbn [snd] in HI.
  destruct (r =? EOK).
  - apply RunStateMachine_loop_Inv. exact HI.
  - exact HI.
Qed.

End engine_invariant.

(** ** 16. More about the semantic actions *)

Section parser_more.
Context {V : Type} `{VarServer V}.
Variable VAR_INVALID : Z.
Variable NOTIFY_MODIFIED : Z.

Lemma combined_result_EOK (rcl rcr : Z) (l1 l2 : list Output) :
  (rcl = EOK <-> l1 = []) -> (rcr = EOK <-> l2 = []) ->
  (if negb (rcr =? EOK) then rcr else if negb (rcl =? EOK) then rcl else EOK)
  = EOK <-> l1 ++ l2 = [].
Proof.
  intros H1 H2.
  destruct (Z.eqb_spec rcr EOK) as [Hr | Hr];
    destruct (Z.eqb_spec rcl EOK) as [Hl | Hl]; cbn [negb];
    destruct l1 as [| o1 l1]; destruct l2 as [| o2 l2]; cbn [app];
    split; intros Hx; try reflexivity; try discriminate;
    try (exfalso; apply Hr; apply H2; reflexivity);
    try (exfalso; apply Hl; apply H1; reflexivity);
    try (apply H1 in Hl; discriminate);
    try (apply H2 in Hr; discriminate);
    try contradiction.
Qed.

(** What [RequestNotifications] logs, and when it returns [EOK]. *)
Lemma RequestNotifications_logged (h : Z) (p : VariablePtr) :
  forall s : Parser,
    exists l,
      logged (RequestNotifications VAR_INVALID NOTIFY_MODIFIED h p s).2
        = logged s ++ l /\
      ((RequestNotifications VAR_INVALID NOTIFY_MODIFIED h p s).1 = EOK
       <-> l = []).
Proof.
  induction p as [| n l IHl r IHr]; intros s; cbn [RequestNotifications].
  - exists []. cbn. rewrite app_nil_r. repeat split.
  - cbv zeta. unfold bind.
    destruct (IHl s) as (l1 & Hl1 & He1).
    destruct (RequestNotifications VAR_INVALID NOTIFY_MODIFIED h l s)
      as [rcl s1].
    destruct (IHr s1) as (l2 & Hl2 & He2).
    destruct (RequestNotifications VAR_INVALID NOTIFY_MODIFIED h r s1)
      as [rcr s2].
    cbn [fst snd] in *.
    destruct (bool_decide (operation n = VA_SYSVAR)
              && negb (hVar n =? VAR_INVALID)).
    + unfold call_VAR_Notify.
      destruct (VAR_Notify h (hVar n) NOTIFY_MODIFIED (server s2)) as [rc v].
      destruct (Z.eqb_spec rc EOK) as [Hrc | Hrc]; cbn [negb].
      * exists (l1 ++ l2). cbn [ret fst snd logged]. split.
        -- rewrite Hl2, Hl1, app_assoc. reflexivity.
        -- apply combined_result_EOK; assumption.
      * unfold parser_syslog, ret. cbn [fst snd logged].
        eexists (l1 ++ l2 ++ [_]). split.
        -- rewrite Hl2, Hl1, !app_assoc. reflexivity.
        -- split; [intros Heq; contradiction |].
           intros Hnil. destruct l1; destruct l2; discriminate.
    + exists (l1 ++ l2). cbn [ret fst snd]. split.
      * rewrite Hl2, Hl1, app_assoc. reflexivity.
      * apply combined_result_EOK; assumption.
Qed.

Lemma RequestNotifications_nothing_to_request (h : Z) (p : VariablePtr) :
  forall s : Parser,
    valid_sysvars VAR_INVALID p = [] ->
    RequestNotifications VAR_INVALID NOTIFY_MODIFIED h p s = (EOK, s).
Proof.
  induction p as [| n l IHl r IHr]; intros s Hnone;
    cbn [RequestNotifications valid_sysvars] in *; [reflexivity |].
  apply app_eq_nil in Hnone as [Hl Hrest].
  apply app_eq_nil in Hrest as [Hr Hn].
  cbv zeta. unfold bind. rewrite (IHl s Hl), (IHr s Hr).
  destruct (bool_decide (operation n = VA_SYSVAR)
            && negb (hVar n =? VAR_INVALID)); [discriminate | reflexivity].
Qed.

Lemma answers_of_app (h : Z) (l1 l2 : list VarNode) (v : V) :
  answers_of NOTIFY_MODIFIED h (l1 ++ l2) v =
    ((answers_of NOTIFY_MODIFIED h l1 v).1
       ++ (answers_of NOTIFY_MODIFIED h l2
             (answers_of NOTIFY_MODIFIED h l1 v).2).1,
     (answers_of NOTIFY_MODIFIED h l2
        (answers_of NOTIFY_MODIFIED h l1 v).2).2).
Proof.
  revert v. induction l1 as [| n l1 IH]; intros v; cbn [app answers_of].
  - cbn [fst snd app].
    destruct (answers_of NOTIFY_MODIFIED h l2 v); reflexivity.
  - destruct (VAR_Notify h (hVar n) NOTIFY_MODIFIED v) as [rc v1].
    rewrite (IH v1).
    destruct (answers_of NOTIFY_MODIFIED h l1 v1) as [a1 v2].
    reflexivity.
Qed.

Lemma last_refusal_app (r : Z) (a1 a2 : list (VarNode * Z)) :
  last_refusal r (a1 ++ a2) = last_refusal (last_refusal r a1) a2.
Proof.
  revert r. induction a1 as [| [n rc] a1 IH]; intros r; [reflexivity |].
  cbn [app last_refusal]. apply IH.
Qed.

Lemma last_refusal_from (r : Z) (a : list (VarNode * Z)) :
  last_refusal r a =
    if negb (last_refusal EOK a =? EOK) then last_refusal EOK a else r.
Proof.
  revert r. induction a as [| [n rc] a IH]; intros r; [reflexivity |].
  cbn [last_refusal]. rewrite (IH (if negb (rc =? EOK) then rc else r)).
  rewrite (IH (if negb (rc =? EOK) then rc else EOK)).
  destruct (Z.eqb_spec (last_refusal EOK a) EOK) as [He | He]; cbn [negb].
  - destruct (Z.eqb_spec rc EOK) as [Hrc | Hrc]; cbn [negb].
    + change (EOK =? EOK) with true. reflexivity.
    + destruct (Z.eqb_spec rc EOK); [contradiction | reflexivity].
  - destruct (Z.eqb_spec (last_refusal EOK a) EOK); [contradiction |].
    reflexivity.
Qed.

Lemma last_refusal_EOK_iff (a : list (VarNode * Z)) :
  last_refusal EOK a = EOK <-> Forall (fun answer => answer.2 = EOK) a.
Proof.
  induction a as [| [n rc] a IH].
  - split; [constructor | reflexivity].
  - cbn [last_refusal]. rewrite last_refusal_from.
    destruct (Z.eqb_spec (last_refusal EOK a) EOK) as [He | He]; cbn [negb].
    + destruct (Z.eqb_spec rc EOK) as [Hrc | Hrc]; cbn [negb]; split.
      * intros _. constructor; [exact Hrc | apply IH; exact He].
      * reflexivity.
      * intros Heq. contradiction.
      * intros Hall. inversion Hall; subst. contradiction.
    + split; [intros Heq; contradiction |].
      intros Hall. inversion Hall as [| ? ? _ Hrest]; subst.
      apply IH in Hrest. contradiction.
Qed.

(** [RequestNotifications] is the sequence of the requests for the valid
    [SYSVAR] nodes of the tree: its result, the server it leaves, the
    requests it made and the records it logged, in terms of the answers
    of [VAR_Notify]. *)
Lemma RequestNotifications_answers (h : Z) (p : VariablePtr) :
  forall s : Parser,
    RequestNotifications VAR_INVALID NOTIFY_MODIFIED h p s =
      (last_refusal EOK
         (answers_of NOTIFY_MODIFIED h (valid_sysvars VAR_INVALID p)
            (server s)).1,
       mkParser
         (answers_of NOTIFY_MODIFIED h (valid_sysvars VAR_INVALID p)
            (server s)).2
         (notified s ++ requests_of VAR_INVALID h p)
         (logged s
          ++ flat_map refusal_record
               (answers_of NOTIFY_MODIFIED h (valid_sysvars VAR_INVALID p)
                  (server s)).1)).
Proof.
  unfold requests_of.
  induction p as [| n l IHl r IHr]; intros s;
    cbn [RequestNotifications valid_sysvars].
  - destruct s as [v q g]. cbn. rewrite !app_nil_r. reflexivity.
  - cbv zeta. unfold bind. rewrite (IHl s).
    set (al := answers_of NOTIFY_MODIFIED h (valid_sysvars VAR_INVALID l)
                 (server s)).
    rewrite IHr. cbn [server notified logged].
    set (ar := answers_of NOTIFY_MODIFIED h (valid_sysvars VAR_INVALID r) al.2).
    rewrite !answers_of_app. fold al. cbn [fst snd]. fold ar.
    assert (Hres :
              (if negb (last_refusal EOK ar.1 =? EOK)
               then last_refusal EOK ar.1
               else if negb (last_refusal EOK al.1 =? EOK)
                    then last_refusal EOK al.1 else EOK)
              = last_refusal EOK (al.1 ++ ar.1)).
    { rewrite last_refusal_app, (last_refusal_from (last_refusal EOK al.1)).
      destruct (negb (last_refusal EOK ar.1 =? EOK)); [reflexivity |].
      destruct (Z.eqb_spec (last_refusal EOK al.1) EOK) as [He | He];
        cbn [negb]; [symmetry; exact He | reflexivity]. }
    rewrite Hres.
    destruct (bool_decide (operation n = VA_SYSVAR)
              && negb (hVar n =? VAR_INVALID)).
    + cbn [answers_of]. unfold call_VAR_Notify. cbn [server notified logged].
      destruct (VAR_Notify h (hVar n) NOTIFY_MODIFIED ar.2) as [rc v].
      cbn [fst snd].
      assert (Hlast :
                last_refusal EOK (al.1 ++ ar.1 ++ [(n, rc)])
                = if negb (rc =? EOK) then rc
                  else last_refusal EOK (al.1 ++ ar.1)).
      { rewrite app_assoc, last_refusal_app. reflexivity. }
      assert (Hrec :
                flat_map refusal_record (al.1 ++ ar.1 ++ [(n, rc)])
                = flat_map refusal_record al.1
                  ++ flat_map refusal_record ar.1
                  ++ refusal_record (n, rc)).
      { rewrite !flat_map_app. cbn [flat_map]. rewrite app_nil_r.
        reflexivity. }
      rewrite Hlast, Hrec, !map_app. cbn [map]. unfold refusal_record.
      cbn [fst snd].
      destruct (Z.eqb_spec rc EOK) as [Hrc | Hrc]; cbn [negb];
        unfold parser_syslog, ret; cbn [server notified logged];
        rewrite ?app_nil_r; repeat rewrite <- app_assoc; reflexivity.
    + cbn [answers_of fst snd]. unfold ret.
      rewrite !app_nil_r, !map_app, !flat_map_app.
      repeat rewrite <- app_assoc. reflexivity.
Qed.

(** X15: [RequestNotifications] returns [EOK] exactly when it logged
    nothing, that is when [VAR_Notify] answered [EOK] to every request of
    the tree: the result is the answer to the last request that was
    refused, which later successes do not clear, and every refusal leaves
    one record in the log.  A tree without a [SYSVAR] node with a valid
    handle makes no request and returns [EOK]. *)
Theorem RequestNotifications_EOK_iff_nothing_logged
    (hVarServer : Z) (pVariable : VariablePtr) (s : Parser) :
  let run :=
    RequestNotifications VAR_INVALID NOTIFY_MODIFIED hVarServer pVariable s in
  let answered :=
    answers_of NOTIFY_MODIFIED hVarServer
      (valid_sysvars VAR_INVALID pVariable) (server s) in
  (run.1 = EOK <-> logged run.2 = logged s) /\
  (valid_sysvars VAR_INVALID pVariable = [] -> run = (EOK, s)) /\
  run =
    (last_refusal EOK answered.1,
     mkParser answered.2
       (notified s ++ requests_of VAR_INVALID hVarServer pVariable)
       (logged s ++ flat_map refusal_record answered.1)) /\
  (run.1 = EOK <-> Forall (fun answer => answer.2 = EOK) answered.1) /\
  map fst answered.1 = valid_sysvars VAR_INVALID pVariable.
Proof.
  cbv zeta. split; [| split; [| split; [| split]]].
  - destruct (RequestNotifications_logged hVarServer pVariable s)
      as (l & Hl & He).
    rewrite Hl, He. split.
    + intros ->. apply app_nil_r.
    + intros Heq. apply (app_inv_head (logged s)).
      rewrite app_nil_r. exact Heq.
  - apply RequestNotifications_nothing_to_request.
  - apply RequestNotifications_answers.
  - rewrite RequestNotifications_answers. cbn [fst].
    apply last_refusal_EOK_iff.
  - generalize (server s).
    induction (valid_sysvars VAR_INVALID pVariable) as [| n nodes IH];
      intros v; [reflexivity |].
    cbn [answers_of].
    destruct (VAR_Notify hVarServer (hVar n) NOTIFY_MODIFIED v) as [rc v1].
    specialize (IH v1).
    destruct (answers_of NOTIFY_MODIFIED hVarServer nodes v1) as [a v2].
    cbn [fst map] in *. rewrite IH. reflexivity.
Qed.

Lemma transition_action_value
    (h : Z) (allocated : bool) (id : option string) (guard : VariablePtr)
    (s : Parser) :
  (transition_action VAR_INVALID NOTIFY_MODIFIED h allocated id guard s).1
  = if allocated then Some (mkTransition id guard) else None.
Proof.
  unfold transition_action. destruct allocated; [| reflexivity].
  unfold bind. cbn [trans_pVariable].
  destruct (RequestNotifications VAR_INVALID NOTIFY_MODIFIED h guard s).
  reflexivity.
Qed.

Lemma transitionlist_action_value
    (h : Z) (kept : list (bool * option string * VariablePtr)) :
  forall (rules : list (bool * option string * VariablePtr)) (s : Parser),
    kept_before_failure (fun rule => rule.1.1) kept rules ->
    (transitionlist_action VAR_INVALID NOTIFY_MODIFIED h rules s).1
    = map transition_of_rule kept.
Proof.
  induction kept as [| k kept IH]; intros rules s [Hall (rest & Hrules & Hrest)].
  - cbn [app] in Hrules. subst rules.
    destruct Hrest as [-> | (rule & post & -> & Hfail)]; [reflexivity |].
    destruct rule as [[allocated id] guard]. cbn [fst] in Hfail. subst.
    cbn [transitionlist_action]. unfold bind.
    pose proof (transition_action_value h false id guard s) as Hv.
    destruct (transition_action VAR_INVALID NOTIFY_MODIFIED h false id guard s)
      as [t s1].
    cbn [fst] in Hv. subst t.
    destruct (transitionlist_action VAR_INVALID NOTIFY_MODIFIED h post s1).
    reflexivity.
  - subst rules. inversion Hall as [| ? ? Hk Hkept]; subst.
    destruct k as [[allocated id] guard]. cbn [fst] in Hk. subst.
    cbn [app transitionlist_action map]. unfold bind.
    pose proof (transition_action_value h true id guard s) as Hv.
    destruct (transition_action VAR_INVALID NOTIFY_MODIFIED h true id guard s)
      as [t s1].
    cbn [fst] in Hv. subst t.
    pose proof (IH (kept ++ rest) s1) as Hrec.
    destruct (transitionlist_action VAR_INVALID NOTIFY_MODIFIED h
                (kept ++ rest) s1) as [ts s2].
    cbn [fst] in *. unfold ret. cbn [fst]. f_equal.
    apply Hrec. split; [exact Hkept |]. exists rest. split; [reflexivity |].
    exact Hrest.
Qed.

(** X16: the transitions of a state are kept in the order of the text, up
    to the first one that could not be allocated: that one and all that
    follow are dropped from the list, while the notifications of every
    allocated transition, the dropped ones included, are still
    requested. *)
Theorem transitionlist_keeps_order_and_drops_after_failure
    (hVarServer : Z) (kept rules : list (bool * option string * VariablePtr))
    (s : Parser) :
  kept_before_failure (fun rule => rule.1.1) kept rules ->
  let run :=
    transitionlist_action VAR_INVALID NOTIFY_MODIFIED hVarServer rules s in
  run.1 = map transition_of_rule kept /\
  notified run.2 = notified s ++ requests_of_rules VAR_INVALID hVarServer rules.
Proof.
  intros Hkept. cbv zeta. split.
  - apply transitionlist_action_value. exact Hkept.
  - apply transitionlist_action_notified.
Qed.

Lemma state_definition_action_value
    (h : Z) (allocated : bool) (text : state_text) (s : Parser) :
  (state_definition_action VAR_INVALID NOTIFY_MODIFIED h allocated text s).1
  = if allocated
    then Some (mkState (text_id text)
                 (entry_action (text_entry text).1.1 (text_entry text).1.2
                    (text_entry text).2 s).1
                 (transitionlist_action VAR_INVALID NOTIFY_MODIFIED h
                    (text_transitions text) s).1
                 (exit_action (text_exit text).1.1 (text_exit text).1.2
                    (text_exit text).2 s).1)
    else None.
Proof.
  unfold state_definition_action.
  destruct (text_entry text) as [[ea ed] es].
  destruct (text_exit text) as [[xa xd] xs].
  unfold bind, entry_action, exit_action, ret. cbn [fst snd].
  destruct (transitionlist_action VAR_INVALID NOTIFY_MODIFIED h
              (text_transitions text) s) as [ts s1].
  reflexivity.
Qed.

Lemma state_definition_list_action_ids
    (h : Z) (kept : list (bool * state_text)) :
  forall (texts : list (bool * state_text)) (s : Parser),
    kept_before_failure fst kept texts ->
    map state_id
      (state_definition_list_action VAR_INVALID NOTIFY_MODIFIED h texts s).1
    = map (fun text => text_id text.2) kept.
Proof.
  induction kept as [| k kept IH]; intros texts s [Hall (rest & Htexts & Hrest)].
  - cbn [app] in Htexts. subst texts.
    destruct Hrest as [-> | (rule & post & -> & Hfail)]; [reflexivity |].
    destruct rule as [allocated text]. cbn [fst] in Hfail. subst.
    cbn [state_definition_list_action]. unfold bind.
    pose proof (state_definition_action_value h false text s) as Hv.
    destruct (state_definition_action VAR_INVALID NOTIFY_MODIFIED h false
                text s) as [st s1].
    cbn [fst] in Hv. subst st.
    destruct (state_definition_list_action VAR_INVALID NOTIFY_MODIFIED h
                post s1).
    reflexivity.
  - subst texts. inversion Hall as [| ? ? Hk Hkept]; subst.
    destruct k as [allocated text]. cbn [fst] in Hk. subst.
    cbn [app state_definition_list_action map]. unfold bind.
    pose proof (state_definition_action_value h true text s) as Hv.
    destruct (state_definition_action VAR_INVALID NOTIFY_MODIFIED h true
                text s) as [st s1].
    cbn [fst] in Hv. subst st.
    pose proof (IH (kept ++ rest) s1) as Hrec.
    destruct (state_definition_list_action VAR_INVALID NOTIFY_MODIFIED h
                (kept ++ rest) s1) as [sts s2].
    cbn [fst snd] in *. unfold ret. cbn [fst map state_id]. f_equal.
    apply Hrec. split; [exact Hkept |]. exists rest. split; [reflexivity |].
    exact Hrest.
Qed.

(** X17: the states of the parsed machine are, in the order of the text,
    the states defined before the first one that could not be allocated,
    each under the name the text gives it; so [FindState] fails for a name
    exactly when none of these states has it.  A machine has its ["init"]
    state if and only if the text defines one before any failure. *)
Theorem parsed_states_are_found_by_name
    (hVarServer : Z) (kept texts : list (bool * state_text))
    (name : string) (m : StateMachine) (s : Parser) :
  kept_before_failure fst kept texts ->
  let parsed :=
    statemachine_action m
      (state_definition_list_action VAR_INVALID NOTIFY_MODIFIED hVarServer
         texts s).1 in
  map state_id (pStateList parsed) = map (fun text => text_id text.2) kept /\
  (FindState parsed (Some name) = None
   <-> name ∉ map (fun text => text_id text.2) kept) /\
  pCurrentState parsed = pCurrentState m.
Proof.
  intros Hkept parsed.
  assert (Hids : map state_id (pStateList parsed)
                 = map (fun text => text_id text.2) kept).
  { subst parsed. cbn [statemachine_action pStateList].
    apply state_definition_list_action_ids. exact Hkept. }
  split; [exact Hids |]. split; [| reflexivity].
  rewrite <- Hids. unfold FindState.
  pose proof (FindState_from_spec (pStateList parsed) name) as Hspec.
  destruct (FindState_from (pStateList parsed) name) as [st |].
  - destruct Hspec as (pre & post & Hl & Hid & _).
    split; [discriminate |]. intros Hnot. exfalso. apply Hnot.
    rewrite Hl, map_app. apply elem_of_app. right. cbn [map].
    rewrite Hid. apply list_elem_of_here.
  - split; [| reflexivity]. intros _ Hin.
    apply list_elem_of_fmap in Hin as (st & Hname & Hst).
    rewrite Forall_forall in Hspec. apply (Hspec st Hst). symmetry.
    exact Hname.
Qed.

End parser_more.

Section request_by_name.
Context {V : Type} `{VarServer V} `{VarServerNames V}.
Variable VAR_INVALID : Z.
Variable NOTIFY_MODIFIED : Z.

(** X18: [RequestNotification] returns the handle that the server finds
    for the name, or [VAR_INVALID].  For a name the server does not know
    it makes no request and logs that; for a known name it makes exactly
    one request, [VAR_Notify] on the handle found: when the answer is
    [EOK] it returns the handle and logs nothing, when the request is
    refused it returns [VAR_INVALID] and logs the refusal.  A valid handle
    is returned only when nothing was logged. *)
Theorem RequestNotification_valid_handle_only_when_granted
    (hVarServer : Z) (varName : string) (s : Parser) :
  let found := (VAR_FindByName hVarServer varName (server s)).1 in
  let run :=
    RequestNotification VAR_INVALID NOTIFY_MODIFIED hVarServer varName s in
  let answer :=
    VAR_Notify hVarServer found NOTIFY_MODIFIED
      (VAR_FindByName hVarServer varName (server s)).2 in
  (run.1 = found \/ run.1 = VAR_INVALID) /\
  (found = VAR_INVALID ->
   notified run.2 = notified s /\
   logged run.2
     = logged s
       ++ [Syslog LOG_ERR ("Cannot get handle for " +:+ varName +:+ nl)]) /\
  (found <> VAR_INVALID ->
   notified run.2 = notified s ++ [(hVarServer, found)]) /\
  (found <> VAR_INVALID -> run.1 = VAR_INVALID ->
   logged run.2
     = logged s
       ++ [Syslog LOG_ERR
             ("Cannot request change notification for " +:+ varName +:+ nl)])
  /\
  (run.1 <> VAR_INVALID -> logged run.2 = logged s) /\
  (found = VAR_INVALID ->
   run =
     (VAR_INVALID,
      mkParser (VAR_FindByName hVarServer varName (server s)).2
        (notified s)
        (logged s
         ++ [Syslog LOG_ERR ("Cannot get handle for " +:+ varName +:+ nl)])))
  /\
  (found <> VAR_INVALID -> answer.1 = EOK ->
   run =
     (found,
      mkParser answer.2 (notified s ++ [(hVarServer, found)]) (logged s)))
  /\
  (found <> VAR_INVALID -> answer.1 <> EOK ->
   run =
     (VAR_INVALID,
      mkParser answer.2 (notified s ++ [(hVarServer, found)])
        (logged s
         ++ [Syslog LOG_ERR
               ("Cannot request change notification for "
                +:+ varName +:+ nl)]))).
Proof.
  cbv zeta. unfold RequestNotification, bind, call_VAR_FindByName.
  destruct (VAR_FindByName hVarServer varName (server s)) as [found v].
  cbn [fst snd].
  destruct (Z.eqb_spec found VAR_INVALID) as [Hf | Hf]; cbn [negb].
  - unfold parser_syslog, ret. cbn [fst snd server notified logged].
    repeat split; auto; intros; try contradiction.
    subst found. reflexivity.
  - unfold call_VAR_Notify. cbn [server notified logged].
    destruct (VAR_Notify hVarServer found NOTIFY_MODIFIED v) as [rc v'].
    cbn [fst snd].
    destruct (Z.eqb_spec rc EOK) as [Hrc | Hrc]; cbn [negb].
    + unfold ret. cbn [fst snd notified logged].
      repeat split; auto; intros; contradiction.
    + unfold parser_syslog, ret. cbn [fst snd server notified logged].
      repeat split; auto; intros; contradiction.
Qed.

End request_by_name.

(** ** 17. Runs that satisfy the hypotheses of sections 14 to 16 *)

Lemma DeleteTimer_keeps_slot_witness :
  let te := mkSigevent SIGEV_SIGNAL (TIMER_NOTIFICATION 34) 3 in
  timers (DeleteTimer 3 timer_state1).2 = timers timer_state1 /\
  (exists t',
      calls (CreateTimer 34 3 250 (DeleteTimer 3 timer_state1).2).2
        = calls timer_state1 ++ [Call_timer_delete 1; Call_timer_delete 1;
                                 Call_timer_create CLOCK_REALTIME te;
                                 Call_timer_settime t' 0 (one_shot 250)]) /\
  (exists t',
      calls (CreateTick 34 3 250 (DeleteTimer 3 timer_state1).2).2
        = calls timer_state1 ++ [Call_timer_delete 1; Call_timer_delete 1;
                                 Call_timer_create CLOCK_REALTIME te;
                                 Call_timer_settime t' 0 (periodic 250)]).
Proof.
  apply (DeleteTimer_keeps_slot_and_next_create_deletes_again 34 3 250 1
           timer_state1).
  - lia.
  - reflexivity.
  - lia.
Defined.

Lemma timer_functions_touch_one_slot_witness :
  (length (timers (CreateTimer 34 3 250 timer_state1).2)
   = length (timers timer_state1) /\
   timers (CreateTimer 34 3 250 timer_state1).2 !! 4%nat
   = timers timer_state1 !! 4%nat) /\
  (length (timers (CreateTick 34 3 250 timer_state1).2)
   = length (timers timer_state1) /\
   timers (CreateTick 34 3 250 timer_state1).2 !! 4%nat
   = timers timer_state1 !! 4%nat) /\
  (length (timers (DeleteTimer 3 timer_state1).2)
   = length (timers timer_state1) /\
   timers (DeleteTimer 3 timer_state1).2 !! 4%nat
   = timers timer_state1 !! 4%nat).
Proof.
  apply (timer_functions_touch_one_slot 34 3 250 4 timer_state1).
  vm_compute. lia.
Defined.

Lemma create_installs_timer_in_slot_witness :
  let te := mkSigevent SIGEV_SIGNAL (TIMER_NOTIFICATION 34) 3 in
  let created :=
    (timer_create CLOCK_REALTIME te
       (default 0 (timers timer_state0 !! Z.to_nat 3))
       (os (after_delete 3 timer_state0))).1.2 in
  (timers (CreateTimer 34 3 250 timer_state0).2 !! Z.to_nat 3 = Some created /\
   last (calls (CreateTimer 34 3 250 timer_state0).2)
     = Some (Call_timer_settime created 0 (one_shot 250))) /\
  (timers (CreateTick 34 3 250 timer_state0).2 !! Z.to_nat 3 = Some created /\
   last (calls (CreateTick 34 3 250 timer_state0).2)
     = Some (Call_timer_settime created 0 (periodic 250))).
Proof.
  apply (create_installs_timer_in_slot 34 3 250 timer_state0).
  - lia.
  - vm_compute. lia.
Defined.

Lemma create_passes_interval_witness :
  (exists t its,
      last (calls (CreateTimer 34 3 1500 timer_state0).2)
        = Some (Call_timer_settime t 0 its) /\
      it_interval its = mkTimespec 0 0 /\
      nanoseconds (it_value its) = 1500 * 10 ^ 6 /\
      0 <= tv_sec (it_value its) /\
      0 <= tv_nsec (it_value its) < 10 ^ 9) /\
  (exists t its,
      last (calls (CreateTick 34 3 1500 timer_state0).2)
        = Some (Call_timer_settime t 0 its) /\
      it_interval its = it_value its /\
      nanoseconds (it_value its) = 1500 * 10 ^ 6 /\
      0 <= tv_sec (it_value its) /\
      0 <= tv_nsec (it_value its) < 10 ^ 9).
Proof.
  apply (create_passes_interval_in_milliseconds 34 3 1500 timer_state0); lia.
Defined.

Lemma create_accepts_negative_interval_witness :
  ((CreateTimer 34 3 (-1500) timer_state0).1 = EOK /\
   exists t its,
     last (calls (CreateTimer 34 3 (-1500) timer_state0).2)
       = Some (Call_timer_settime t 0 its) /\
     nanoseconds (it_value its) = -1500 * 10 ^ 6 /\
     tv_sec (it_value its) <= 0 /\
     - 10 ^ 9 < tv_nsec (it_value its) <= 0) /\
  ((CreateTick 34 3 (-1500) timer_state0).1 = EOK /\
   exists t its,
     last (calls (CreateTick 34 3 (-1500) timer_state0).2)
       = Some (Call_timer_settime t 0 its) /\
     nanoseconds (it_value its) = -1500 * 10 ^ 6 /\
     tv_sec (it_value its) <= 0 /\
     - 10 ^ 9 < tv_nsec (it_value its) <= 0).
Proof.
  apply (create_accepts_negative_interval 34 3 (-1500) timer_state0); lia.
Defined.

(** The value that reaches [timer_settime] for -1500 ms. *)
Example negative_interval_value :
  last (calls (CreateTimer 34 3 (-1500) timer_state0).2)
  = Some (Call_timer_settime 1 0
            (mkItimerspec (mkTimespec 0 0) (mkTimespec (-1) (-500000000)))).
Proof. reflexivity. Qed.

Lemma created_timer_notifies_its_guard_witness :
  exists te t1 t2,
    calls (CreateTimer 34 3 250 timer_state0).2
      = calls (after_delete 3 timer_state0)
        ++ [Call_timer_create CLOCK_REALTIME te;
            Call_timer_settime t1 0 (one_shot 250)] /\
    calls (CreateTick 34 3 250 timer_state0).2
      = calls (after_delete 3 timer_state0)
        ++ [Call_timer_create CLOCK_REALTIME te;
            Call_timer_settime t2 0 (periodic 250)] /\
    sigev_notify te = SIGEV_SIGNAL /\
    (CheckInConditions 34 (timer_expression_action (leaf number_3))
       (sigev_signo te) (sigev_value_sival_int te) = EOK
     <-> val_ui number_3 = 3).
Proof.
  apply (created_timer_notifies_its_guard 34 3 250 number_3 timer_state0).
  lia.
Defined.

Lemma unreferenced_event_witness :
  let e0 := if sig_timer =? TIMER_NOTIFICATION 34
            then (call_SetTimer 1 armed_engine).2 else armed_engine in
  (HandleSignal 34 sig_timer 1 armed_engine).2 = (call_SetTimer 0 e0).2 /\
  ((HandleSignal 34 sig_timer 1 armed_engine).1 = ENOENT \/
   (HandleSignal 34 sig_timer 1 armed_engine).1 = EINVAL) /\
  (Forall (fun t => statename t <> None /\ trans_pVariable t <> NULLVAR)
          (trans sm_armed) ->
   (HandleSignal 34 sig_timer 1 armed_engine).1 = ENOENT).
Proof.
  apply (unreferenced_event_leaves_engine_alone 34 sig_timer 1 armed_engine
           sm_armed).
  - reflexivity.
  - repeat constructor; intros Hr; apply CheckInConditions_EOK_iff in Hr;
      vm_compute in Hr; discriminate Hr.
Defined.

Lemma transition_runs_exit_then_entry_witness :
  CheckTransition 34 (Some to_b) sig_var h_activate ghost_engine =
    ((run_statements 1000 [entry_b] world_after_exit_a).1,
     mkEngine
       (mkStateMachine 1000 (Some state_b) true [state_a; state_b])
       (run_statements 1000 [entry_b] world_after_exit_a).2
       ([] ++ verbose_line (machine ghost_engine) "Exit State: " state_a
           ++ verbose_line (machine ghost_engine) "Enter State: " state_b)).
Proof.
  apply (transition_runs_exit_then_entry 34 to_b "b" sig_var h_activate 1
           state_a state_b (mkStateExit [] [exit_a])
           (mkStateEntry [] [entry_b]) armed_world world_after_exit_a
           ghost_engine); try reflexivity.
  discriminate.
Defined.

Lemma state_without_exit_block_witness :
  machine (HandleSignal 34 sig_var h_activate trap_engine).2
    = machine trap_engine /\
  (HandleSignal 34 sig_var h_activate trap_engine).1 <> EOK.
Proof.
  apply (state_without_exit_block_is_never_left 34 sig_var h_activate
           trap_engine trap_state); reflexivity.
Defined.

(** In the trap the guard fires at every activation, and the exit fails. *)
Example trap_engine_run :
  guard_fires 34 sig_var h_activate to_b trap_engine /\
  (HandleSignal 34 sig_var h_activate trap_engine).1 = EINVAL /\
  output (HandleSignal 34 sig_var h_activate trap_engine).2
    = [Stdout ("Exit State: trap" +:+ nl);
       Syslog LOG_ERR "State 'trap' has no exit actions"].
Proof.
  split; [| split; reflexivity].
  split; [reflexivity |]. exists 1. split; [reflexivity | discriminate].
Qed.

Lemma HandleSignal_keeps_definition_witness :
  same_definition (machine armed_engine)
    (machine (HandleSignal 34 sig_var h_trigger armed_engine).2) /\
  current_in_list (machine (HandleSignal 34 sig_var h_trigger armed_engine).2).
Proof.
  apply (HandleSignal_keeps_definition_and_current_state 34 sig_var h_trigger
           armed_engine).
  exists sm_armed. split; [reflexivity |].
  do 3 apply list_elem_of_further. apply list_elem_of_here.
Defined.

Lemma RunStateMachine_without_init_witness :
  RunStateMachine 34 example2_signals ghost_engine =
    (ENOENT,
     mkEngine (machine ghost_engine) (world ghost_engine)
       (output ghost_engine
        ++ [Syslog LOG_ERR "Cannot find state: init";
            Syslog LOG_ERR "Cannot find init state"])).
Proof.
  apply (RunStateMachine_without_init_handles_nothing 34 example2_signals
           ghost_engine).
  reflexivity.
Defined.

Lemma RunStateMachine_current_state_witness :
  same_definition (machine example2_start)
    (machine (RunStateMachine 34 example2_signals example2_start).2) /\
  current_in_list
    (machine (RunStateMachine 34 example2_signals example2_start).2).
Proof.
  apply (RunStateMachine_current_state_is_a_state_of_the_machine 34
           example2_signals example2_start sm_init).
  reflexivity.
Defined.

(** The request for [/sys/alarm/trigger] is refused and the request for
    [/sys/alarm/activate], made after it, is granted. *)
Lemma RequestNotifications_EOK_iff_witness :
  let run := @RequestNotifications unit trigger_refusing_VarServer 0 1 1000
               trigger_or_activate parser0 in
  let answered :=
    @answers_of unit trigger_refusing_VarServer 1 1000
      (valid_sysvars 0 trigger_or_activate) (server parser0) in
  (run.1 = EOK <-> logged run.2 = logged parser0) /\
  (valid_sysvars 0 trigger_or_activate = [] -> run = (EOK, parser0)) /\
  run =
    (last_refusal EOK answered.1,
     mkParser answered.2
       (notified parser0 ++ requests_of 0 1000 trigger_or_activate)
       (logged parser0 ++ flat_map refusal_record answered.1)) /\
  (run.1 = EOK <-> Forall (fun answer => answer.2 = EOK) answered.1) /\
  map fst answered.1 = valid_sysvars 0 trigger_or_activate.
Proof.
  apply (@RequestNotifications_EOK_iff_nothing_logged unit
           trigger_refusing_VarServer 0 1 1000 trigger_or_activate parser0).
Defined.

Example refusal_is_not_cleared :
  @answers_of unit trigger_refusing_VarServer 1 1000
    (valid_sysvars 0 trigger_or_activate) tt
  = ([(mkVarNode VA_SYSVAR 0 h_trigger (Some "/sys/alarm/trigger"%string) 0,
       ENOTSUP);
      (mkVarNode VA_SYSVAR 0 h_activate (Some "/sys/alarm/activate"%string) 0,
       EOK)], tt) /\
  @RequestNotifications unit trigger_refusing_VarServer 0 1 1000
    trigger_or_activate parser0
  = (ENOTSUP,
     mkParser tt [(1000, h_trigger); (1000, h_activate)]
       [Syslog LOG_ERR
          ("Can't request change notification for /sys/alarm/trigger"
           +:+ " on line 0" +:+ nl)]).
Proof. split; reflexivity. Qed.

(** A refused request: the result is the error of the server, and the
    record names the variable and the line. *)
Example refused_request :
  @RequestNotifications unit refusing_VarServer 0 1 1000
    (CreateVariable VA_EQUALS v_trigger (num 1)) parser0
  = (ENOTSUP,
     mkParser tt [(1000, h_trigger)]
       [Syslog LOG_ERR
          ("Can't request change notification for /sys/alarm/trigger"
           +:+ " on line 0" +:+ nl)]).
Proof. reflexivity. Qed.

Lemma transitionlist_drops_after_failure_witness :
  let run := transitionlist_action 0 1 1000 rules_with_failure parser0 in
  run.1 = map transition_of_rule (take 1 rules_with_failure) /\
  notified run.2
  = notified parser0 ++ requests_of_rules 0 1000 rules_with_failure.
Proof.
  apply (transitionlist_keeps_order_and_drops_after_failure 0 1 1000
           (take 1 rules_with_failure) rules_with_failure parser0).
  split.
  - repeat constructor.
  - exists (drop 1 rules_with_failure). split; [reflexivity |].
    right. eexists _, _. split; reflexivity.
Defined.

(** The transition to [alarm] is kept, the transition to [disarmed] after
    the failure is dropped, and [/sys/alarm/activate] is subscribed all the
    same. *)
Example transitionlist_with_failure :
  let run := transitionlist_action 0 1 1000 rules_with_failure parser0 in
  statename <$> run.1 = [Some "alarm"%string] /\
  notified run.2 = [(1000, h_trigger); (1000, h_activate)].
Proof. split; reflexivity. Qed.

Lemma parsed_states_witness :
  let parsed :=
    statemachine_action (example2 None false)
      (state_definition_list_action 0 1 1000 texts_with_failure parser0).1 in
  map state_id (pStateList parsed)
  = map (fun text => text_id text.2) (take 2 texts_with_failure) /\
  (FindState parsed (Some "init"%string) = None
   <-> "init"%string ∉ map (fun text => text_id text.2)
                           (take 2 texts_with_failure)) /\
  pCurrentState parsed = pCurrentState (example2 None false).
Proof.
  apply (parsed_states_are_found_by_name 0 1 1000
           (take 2 texts_with_failure) texts_with_failure "init"
           (example2 None false) parser0).
  split.
  - repeat constructor.
  - exists (drop 2 texts_with_failure). split; [reflexivity |].
    right. eexists _, _. split; reflexivity.
Defined.

Lemma RequestNotification_witness :
  let found :=
    (VAR_FindByName 1000 "/sys/alarm/trigger"%string (server parser0)).1 in
  let run :=
    @RequestNotification unit trigger_refusing_VarServer example2_names
      0 1 1000 "/sys/alarm/trigger" parser0 in
  let answer :=
    @VAR_Notify unit trigger_refusing_VarServer 1000 found 1
      (VAR_FindByName 1000 "/sys/alarm/trigger"%string (server parser0)).2 in
  (run.1 = found \/ run.1 = 0) /\
  (found = 0 ->
   notified run.2 = notified parser0 /\
   logged run.2
     = logged parser0
       ++ [Syslog LOG_ERR
             ("Cannot get handle for " +:+ "/sys/alarm/trigger" +:+ nl)]) /\
  (found <> 0 -> notified run.2 = notified parser0 ++ [(1000, found)]) /\
  (found <> 0 -> run.1 = 0 ->
   logged run.2
     = logged parser0
       ++ [Syslog LOG_ERR
             ("Cannot request change notification for "
              +:+ "/sys/alarm/trigger" +:+ nl)]) /\
  (run.1 <> 0 -> logged run.2 = logged parser0) /\
  (found = 0 ->
   run =
     (0,
      mkParser
        (VAR_FindByName 1000 "/sys/alarm/trigger"%string (server parser0)).2
        (notified parser0)
        (logged parser0
         ++ [Syslog LOG_ERR
               ("Cannot get handle for " +:+ "/sys/alarm/trigger" +:+ nl)])))
  /\
  (found <> 0 -> answer.1 = EOK ->
   run =
     (found,
      mkParser answer.2 (notified parser0 ++ [(1000, found)])
        (logged parser0)))
  /\
  (found <> 0 -> answer.1 <> EOK ->
   run =
     (0,
      mkParser answer.2 (notified parser0 ++ [(1000, found)])
        (logged parser0
         ++ [Syslog LOG_ERR
               ("Cannot request change notification for "
                +:+ "/sys/alarm/trigger" +:+ nl)]))).
Proof.
  apply (@RequestNotification_valid_handle_only_when_granted unit
           trigger_refusing_VarServer example2_names 0 1 1000
           "/sys/alarm/trigger" parser0).
Defined.

(** A refused request by name: the handle is not returned. *)
Example request_by_name_refused :
  @RequestNotification unit trigger_refusing_VarServer example2_names
    0 1 1000 "/sys/alarm/trigger" parser0
  = (0,
     mkParser tt [(1000, h_trigger)]
       [Syslog LOG_ERR
          ("Cannot request change notification for /sys/alarm/trigger"
           +:+ nl)]).
Proof. reflexivity. Qed.

Example request_by_name_runs :
  RequestNotification 0 1 1000 "/sys/alarm/trigger" parser0
    = (h_trigger, mkParser tt [(1000, h_trigger)] []) /\
  RequestNotification 0 1 1000 "/sys/alarm/unknown" parser0
    = (0, mkParser tt []
            [Syslog LOG_ERR
               ("Cannot get handle for /sys/alarm/unknown" +:+ nl)]).
Proof. split; reflexivity. Qed.

(** ** 18. Aborted transitions and foreign signals *)

Section aborted_transitions.
Context {W : Type} `{VarAction W}.
Variable SIGRTMIN : Z.

(** X19: when the guard of a transition fires and the exit of the current
    state does not return [EOK] (a statement of the exit block failed, or
    the block is missing), the transition is given up: the result is the
    result of the exit, the target is not entered, and the current state
    is the one it was. *)
Theorem failed_exit_gives_up_transition
    (t : Transition) (target : string) (signum id rx : Z)
    (e e2 : Engine) :
  statename t = Some target ->
  guard_fires SIGRTMIN signum id t e ->
  ExitState (call_ProcessExpr (trans_pVariable t) e).2 = (rx, e2) ->
  rx <> EOK ->
  CheckTransition SIGRTMIN (Some t) signum id e = (rx, e2) /\
  machine e2 = machine e.
Proof.
  intros Hname [Hc (ui & Heval & Hui)] Hexit Hrx.
  rewrite (CheckTransition_eq SIGRTMIN t target signum id e Hname), Hc.
  change (EOK =? EOK) with true. cbv iota.
  pose proof (call_ProcessExpr_frame (trans_pVariable t) e) as [Hm1 _].
  destruct (call_ProcessExpr (trans_pVariable t) e) as [[r ui'] e1].
  cbn [fst snd] in *. injection Heval as -> ->.
  change (EOK =? EOK) with true. cbv iota.
  destruct (Z.eqb_spec ui 0) as [Hz | _]; [contradiction |]. cbn [negb].
  pose proof (ExitState_machine e1) as Hm2.
  rewrite Hexit in *. cbn [fst snd] in Hm2.
  destruct (Z.eqb_spec rx EOK) as [Heq | _]; [contradiction |].
  split; [reflexivity | rewrite Hm2; exact Hm1].
Qed.

(** X20: a signal that is neither the timer notification nor the variable
    notification is referenced by no guard: for every tree that is not
    [NULL] the matcher returns [ENOENT], so such a signal can never make a
    transition fire. *)
Theorem foreign_signal_is_never_found
    (pVariable : VariablePtr) (signum id : Z) :
  signum <> TIMER_NOTIFICATION SIGRTMIN ->
  signum <> VAR_NOTIFICATION SIGRTMIN ->
  pVariable <> NULLVAR ->
  CheckInConditions SIGRTMIN pVariable signum id = ENOENT.
Proof.
  intros Ht Hv Hnn. destruct pVariable as [| n l r]; [contradiction |].
  destruct (CheckInConditions_Var SIGRTMIN n l r signum id) as [Hr | Hr];
    [| exact Hr].
  exfalso. apply CheckInConditions_EOK_iff in Hr.
  unfold references in Hr. clear Hnn.
  induction Hr as [n' l' r' Hn | n' l' r' _ IH | n' l' r' _ IH]; auto.
  destruct Hn as [(_ & Hs & _) | (_ & Hs & _)]; contradiction.
Qed.

End aborted_transitions.

Lemma failed_exit_witness :
  CheckTransition 34 (Some to_b) sig_var h_activate trap_engine
  = (EINVAL,
     mkEngine (machine trap_engine) armed_world
       [Stdout ("Exit State: trap" +:+ nl);
        Syslog LOG_ERR "State 'trap' has no exit actions"]) /\
  machine
    (mkEngine (machine trap_engine) armed_world
       [Stdout ("Exit State: trap" +:+ nl);
        Syslog LOG_ERR "State 'trap' has no exit actions"])
  = machine trap_engine.
Proof.
  apply (failed_exit_gives_up_transition 34 to_b "b" sig_var h_activate
           EINVAL trap_engine).
  - reflexivity.
  - split; [reflexivity |]. exists 1. split; [reflexivity | discriminate].
  - reflexivity.
  - discriminate.
Defined.

Lemma foreign_signal_witness :
  CheckInConditions 34 (CreateVariable VA_EQUALS v_trigger (num 1)) 15 h_trigger
  = ENOENT.
Proof.
  apply (foreign_signal_is_never_found 34
           (CreateVariable VA_EQUALS v_trigger (num 1)) 15 h_trigger).
  - discriminate.
  - discriminate.
  - discriminate.
Defined.
